(** * hardfall2026: the mark-save protocol, point computation and video ingestion

    A shallow embedding of [core/models.py] and [core/views.py].

    - The relational store is a record of tables; a table is the list of its
      rows in insertion order, and primary keys come from a per-table sequence
      (Django's [AutoField]).
    - A JSON number is an exact rational ([Q]); the two [DecimalField] columns
      of [Mark] hold fixed-point values with four decimal places, embedded as
      the integer number of ten-thousandths of a second ([Z]).
    - A view is a function from the store and the request to the new store and
      the response.
    - A view is taken at the method it accepts ([require_POST]); the
      [transaction.atomic()] block is one step of the store.
    - Python's arithmetic on the submitted numbers is taken as exact.
    - The entries of [marks] are typed: an entry that lacks [action_id] or
      [time_seconds], or carries values of another JSON type, raises in the
      source and leaves the store as it was; such bodies are outside the
      embedding, as are values the columns cannot hold ([max_digits], a
      negative [count], an id beyond the key range).
    - Columns no view writes or reads (timestamps, [duration_seconds],
      [notes]) are left out of the rows. *)

From Stdlib Require Import ZArith QArith Qround Lqa Lia List Bool Ascii String.
From Stdlib Require Import Strings.Byte DecimalString.
From Stdlib Require Import Permutation Sorted.
Import ListNotations.

Open Scope Z_scope.

(* ------------------------------------------------------------------ *)
(** ** models.py *)

Record Date := mkDate { year : nat; month : nat; day : nat }.

Record Event := mkEvent {
  event_id : Z;
  event_name : string;
  event_date : Date }.

Record Video := mkVideo {
  video_id : Z;
  video_event_id : Z;
  filename : string;
  file_path : string;
  file_size_bytes : option Z }.

Record Action := mkAction {
  action_id : Z;
  code : string;
  action_name : string;
  points : Z;
  ordering : Z }.

Record Analysis := mkAnalysis {
  analysis_id : Z;
  analysis_event_id : Z;
  analysis_video_id : Z;
  team : string;
  match_label : string }.

(** [time_seconds] and [delta_seconds] are
    [DecimalField(max_digits=10, decimal_places=4)]: the stored value is
    the field divided by 10000.  [count] is a [PositiveIntegerField]. *)
Record Mark := mkMark {
  mark_id : Z;
  mark_analysis_id : Z;
  mark_action_id : Z;
  time_seconds : Z;
  delta_seconds : Z;
  is_failure : bool;
  count : N }.

(** The files under [settings.VIDEOS_ROOT], by relative path; [open(p, 'wb')]
    replaces what was at [p]. *)
Definition Disk := list (string * list byte).

Record Store := mkStore {
  events : list Event;
  videos : list Video;
  actions : list Action;
  analyses : list Analysis;
  marks : list Mark;
  mark_seq : Z;
  video_seq : Z;
  disk : Disk }.

Definition find_action (s : Store) (pk : Z) : option Action :=
  find (fun a => action_id a =? pk) (actions s).

Definition find_analysis (s : Store) (pk : Z) : option Analysis :=
  find (fun a => analysis_id a =? pk) (analyses s).

Definition find_event (s : Store) (pk : Z) : option Event :=
  find (fun e => event_id e =? pk) (events s).

(** [Mark.points]: [self.action] follows the foreign key, and is only
    followed when the mark is not a failure; [None] stands for the
    [DoesNotExist] a dangling key would raise. *)
Definition Mark_points (s : Store) (self : Mark) : option Z :=
  if is_failure self then Some 0
  else match find_action s (mark_action_id self) with
       | Some a => Some (points a * Z.of_N (count self))
       | None => None
       end.

(* ------------------------------------------------------------------ *)
(** ** views.py: [_validate_video_file] *)

Definition bytes_of (s : string) : list byte := list_byte_of_string s.

Definition bytes_eqb (a b : list byte) : bool :=
  if list_eq_dec Byte.byte_eq_dec a b then true else false.

(** The Python slice [b[i:j]] for [0 <= i <= j]. *)
Definition slice (b : list byte) (i j : nat) : list byte :=
  firstn (j - i) (skipn i b).

(** The [for offset in [4, 8]] loop; [None] when the loop falls through. *)
Fixpoint ftyp_scan (header : list byte) (offsets : list nat) : option string :=
  match offsets with
  | [] => None
  | offset :: rest =>
      if (Nat.ltb (offset + 4) (List.length header)
          && bytes_eqb (slice header offset (offset + 4)) (bytes_of "ftyp"))%bool
      then
        let brand := slice header (offset + 4) (offset + 8) in
        if bytes_eqb brand (bytes_of "qt  ") then Some "mov"%string
        else Some "mp4"%string
      else ftyp_scan header rest
  end.

(** Returns [(is_valid, detected_extension)]. *)
Definition _validate_video_file (file_content : list byte) : bool * option string :=
  if Nat.ltb (List.length file_content) 12 then (false, None)
  else
    let header := slice file_content 0 32 in
    match ftyp_scan header [4; 8]%nat with
    | Some ext => (true, Some ext)
    | None =>
        if bytes_eqb (slice header 0 4) [x1a; x45; xdf; xa3]
        then (true, Some "webm"%string)
        else if (bytes_eqb (slice header 0 4) (bytes_of "RIFF")
                 && bytes_eqb (slice header 8 12) (bytes_of "AVI "))%bool
        then (true, Some "avi"%string)
        else if (bytes_eqb (slice header 0 4) [x00; x00; x01; xba]
                 || bytes_eqb (slice header 0 4) [x00; x00; x01; xb3])%bool
        then (true, Some "mpg"%string)
        else (false, None)
    end.

(* ------------------------------------------------------------------ *)
(** ** views.py: [analysis_save_marks] *)

(** One entry of the submitted [marks] list.  [is_failure] and [count] are
    optional keys; [delta_seconds] is the key the view writes into the entry
    (whatever a client put there is overwritten before it is read). *)
Record MarkData := mkMarkData {
  md_action_id : Z;
  md_time_seconds : Q;
  md_delta_seconds : option Q;
  md_is_failure : option bool;
  md_count : option N }.

(** [request.body]: text that is not JSON, JSON text of a value that is not
    an object (an array, a string, a number, [true], [false], [null]), or a
    JSON object, whose [marks] key may be absent. *)
Inductive Body :=
| InvalidJSON
| JsonNotObject
| JsonObject (marks_key : option (list MarkData)).

(** One entry of the [marks] list of the success response.  The decimals are
    kept as stored (ten-thousandths); [float()] maps them one-to-one to the
    numbers of the JSON text. *)
Record SavedMark := mkSavedMark {
  sm_id : Z;
  sm_action_id : Z;
  sm_action_code : string;
  sm_time_seconds : Z;
  sm_delta_seconds : Z;
  sm_is_failure : bool;
  sm_count : N }.

(** [ServerError] is the answer to an exception no view catches. *)
Inductive Response :=
| Http404
| ServerError
| JsonError (error : string) (status : Z)
| JsonMarks (saved_marks : list SavedMark)
| JsonVideo (new_video_id : Z) (redirect_url : string).

(** [dict.get(key, default)] *)
Definition get {A : Type} (v : option A) (default : A) : A :=
  match v with Some x => x | None => default end.

(** A Python set of integers: a list without duplicates, compared by
    membership. *)
Definition set_of (l : list Z) : list Z := nodup Z.eq_dec l.

Definition mem (x : Z) (l : list Z) : bool := existsb (Z.eqb x) l.

Definition set_eqb (a b : list Z) : bool :=
  forallb (fun x => mem x b) a && forallb (fun x => mem x a) b.

Definition nonempty {A : Type} (l : list A) : bool :=
  match l with [] => false | _ :: _ => true end.

(** [Action.objects.filter(id__in=ids).values_list('id', flat=True)] *)
Definition existing_action_ids (s : Store) (ids : list Z) : list Z :=
  map action_id (filter (fun a => mem (action_id a) ids) (actions s)).

(** The built-in [sorted], a stable sort: an element goes in front of the
    first element of the sorted rest that is not smaller than it. *)
Fixpoint insert_sorted {A : Type} (leb : A -> A -> bool) (x : A) (l : list A) : list A :=
  match l with
  | [] => [x]
  | y :: r => if leb x y then x :: y :: r else y :: insert_sorted leb x r
  end.

Definition sorted {A : Type} (leb : A -> A -> bool) (l : list A) : list A :=
  fold_right (insert_sorted leb) [] l.

Definition time_leb (a b : MarkData) : bool :=
  Qle_bool (md_time_seconds a) (md_time_seconds b).

(** The loop that writes [delta_seconds] into each entry, [prev_time] being
    the loop variable. *)
Fixpoint set_deltas (prev_time : Q) (sorted_marks : list MarkData) : list MarkData :=
  match sorted_marks with
  | [] => []
  | mark_data :: rest =>
      mkMarkData (md_action_id mark_data) (md_time_seconds mark_data)
                 (Some (md_time_seconds mark_data - prev_time)%Q)
                 (md_is_failure mark_data) (md_count mark_data)
        :: set_deltas (md_time_seconds mark_data) rest
  end.

(** What a [DecimalField(decimal_places=4)] column keeps of a number: the
    nearest multiple of 0.0001, a tie going to the even one (the rounding of
    Python's decimal context), as a count of ten-thousandths. *)
Definition to_decimal4 (q : Q) : Z :=
  let x := (q * inject_Z 10000)%Q in
  let f := Qfloor x in
  match ((x - inject_Z f)%Q ?= (1 # 2))%Q with
  | Lt => f
  | Gt => f + 1
  | Eq => if Z.even f then f else f + 1
  end.

(** [Mark(analysis=..., action_id=..., ...)] for one entry, with the primary
    key the insert gives it. *)
Definition new_mark (pk : Z) (analysis : Analysis) (mark_data : MarkData) : Mark :=
  mkMark pk (analysis_id analysis) (md_action_id mark_data)
         (to_decimal4 (md_time_seconds mark_data))
         (to_decimal4 (get (md_delta_seconds mark_data) 0%Q))
         (get (md_is_failure mark_data) false)
         (get (md_count mark_data) 1%N).

(** The rows [bulk_create] inserts, keys taken from the sequence in order. *)
Fixpoint new_marks (next : Z) (analysis : Analysis) (sorted_marks : list MarkData) : list Mark :=
  match sorted_marks with
  | [] => []
  | mark_data :: rest =>
      new_mark next analysis mark_data :: new_marks (next + 1) analysis rest
  end.

(** [analysis.marks.all()] *)
Definition analysis_marks (s : Store) (analysis : Analysis) : list Mark :=
  filter (fun m => mark_analysis_id m =? analysis_id analysis) (marks s).

(** [analysis.marks.all().delete()] *)
Definition delete_marks (s : Store) (analysis : Analysis) : Store :=
  mkStore (events s) (videos s) (actions s) (analyses s)
          (filter (fun m => negb (mark_analysis_id m =? analysis_id analysis)) (marks s))
          (mark_seq s) (video_seq s) (disk s).

(** [Mark.objects.bulk_create(...)] *)
Definition bulk_create (s : Store) (analysis : Analysis) (sorted_marks : list MarkData) : Store :=
  mkStore (events s) (videos s) (actions s) (analyses s)
          (marks s ++ new_marks (mark_seq s) analysis sorted_marks)
          (mark_seq s + Z.of_nat (List.length sorted_marks)) (video_seq s) (disk s).

(** [.select_related('action')]: the join with the action table. *)
Definition select_related_action (s : Store) (l : list Mark) : list (Mark * Action) :=
  flat_map (fun m => match find_action s (mark_action_id m) with
                     | Some a => [(m, a)]
                     | None => []
                     end) l.

(** [.order_by('time_seconds')]: rows come in table order, ties keep it. *)
Definition order_by_time_seconds (l : list (Mark * Action)) : list (Mark * Action) :=
  sorted (fun a b => time_seconds (fst a) <=? time_seconds (fst b)) l.

Definition saved_mark (row : Mark * Action) : SavedMark :=
  let (mark, action) := row in
  mkSavedMark (mark_id mark) (mark_action_id mark) (code action)
              (time_seconds mark) (delta_seconds mark)
              (is_failure mark) (count mark).

(** The list both [analysis_detail] and [analysis_save_marks] build from
    [analysis.marks.select_related('action').order_by('time_seconds')]. *)
Definition marks_json (s : Store) (analysis : Analysis) : list SavedMark :=
  map saved_mark
      (order_by_time_seconds (select_related_action s (analysis_marks s analysis))).

Definition analysis_save_marks (s : Store) (analysis_pk : Z) (body : Body)
  : Store * Response :=
  match find_analysis s analysis_pk with
  | None => (s, Http404)
  | Some analysis =>
      match body with
      | InvalidJSON => (s, JsonError "Invalid JSON" 400)
      | JsonNotObject =>
          (* [data.get] raises [AttributeError], which the [except] clause
             does not name *)
          (s, ServerError)
      | JsonObject data =>
          let marks_data := get data [] in
          let action_ids := set_of (map md_action_id marks_data) in
          let existing_actions := set_of (existing_action_ids s action_ids) in
          if nonempty action_ids && negb (set_eqb action_ids existing_actions)
          then (s, JsonError "Invalid action ID" 400)
          else
            let sorted_marks := set_deltas 0 (sorted time_leb marks_data) in
            let s' := bulk_create (delete_marks s analysis) analysis sorted_marks in
            (s', JsonMarks (marks_json s' analysis))
      end
  end.

(* ------------------------------------------------------------------ *)
(** ** [hashlib.sha256(...).hexdigest()] (FIPS 180-4), on 32-bit words in [Z] *)

Module Sha256.

Definition w32 (x : Z) : Z := Z.land x 0xffffffff.
Definition add32 (x y : Z) : Z := w32 (x + y).
Definition rotr (n x : Z) : Z := w32 (Z.lor (Z.shiftr x n) (Z.shiftl x (32 - n))).
Definition shr (n x : Z) : Z := Z.shiftr x n.
Definition not32 (x : Z) : Z := Z.lxor x 0xffffffff.

Definition Ch (x y z : Z) : Z := Z.lxor (Z.land x y) (Z.land (not32 x) z).
Definition Maj (x y z : Z) : Z :=
  Z.lxor (Z.lxor (Z.land x y) (Z.land x z)) (Z.land y z).
Definition Sigma0 (x : Z) : Z := Z.lxor (Z.lxor (rotr 2 x) (rotr 13 x)) (rotr 22 x).
Definition Sigma1 (x : Z) : Z := Z.lxor (Z.lxor (rotr 6 x) (rotr 11 x)) (rotr 25 x).
Definition sigma0 (x : Z) : Z := Z.lxor (Z.lxor (rotr 7 x) (rotr 18 x)) (shr 3 x).
Definition sigma1 (x : Z) : Z := Z.lxor (Z.lxor (rotr 17 x) (rotr 19 x)) (shr 10 x).

(** The round constants are the first 32 bits of the fractional parts of the
    cube roots of the first 64 primes, the initial hash value those of the
    square roots of the first 8. *)
Definition primes : list Z :=
  [2; 3; 5; 7; 11; 13; 17; 19; 23; 29; 31; 37; 41; 43; 47; 53;
   59; 61; 67; 71; 73; 79; 83; 89; 97; 101; 103; 107; 109; 113; 127; 131;
   137; 139; 149; 151; 157; 163; 167; 173; 179; 181; 191; 193; 197; 199; 211; 223;
   227; 229; 233; 239; 241; 251; 257; 263; 269; 271; 277; 281; 283; 293; 307; 311].

(** The integer cube root of [n] below [2 ^ bits], found bit by bit. *)
Fixpoint cube_root (bits : nat) (n r : Z) : Z :=
  match bits with
  | O => r
  | S b =>
      let c := r + 2 ^ Z.of_nat b in
      cube_root b n (if c * c * c <=? n then c else r)
  end.

Definition K : list Z :=
  Eval vm_compute in map (fun p => w32 (cube_root 40 (p * 2 ^ 96) 0)) primes.

Definition byte_val (b : byte) : Z := Z.of_N (Byte.to_N b).

(** Big-endian encoding of [x] on [n] bytes. *)
Fixpoint be_bytes (n : nat) (x : Z) : list Z :=
  match n with
  | O => []
  | S k => be_bytes k (Z.shiftr x 8) ++ [Z.land x 0xff]
  end.

(** The message, a 1 bit, zero bits up to 56 modulo 64 bytes, and the length
    in bits on 8 bytes. *)
Definition pad (msg : list byte) : list Z :=
  let len := Z.of_nat (List.length msg) in
  let zeros := Z.to_nat ((55 - len) mod 64) in
  map byte_val msg ++ [0x80] ++ repeat 0 zeros ++ be_bytes 8 (8 * len).

Fixpoint words (fuel : nat) (l : list Z) : list Z :=
  match fuel, l with
  | S k, b0 :: b1 :: b2 :: b3 :: r =>
      (b0 * 0x1000000 + b1 * 0x10000 + b2 * 0x100 + b3) :: words k r
  | _, _ => []
  end.

(** The message schedule, newest word first: [rev_w] holds W(t-1), W(t-2), ... *)
Fixpoint schedule (n : nat) (rev_w : list Z) : list Z :=
  match n with
  | O => rev_w
  | S k =>
      let w := add32 (add32 (sigma1 (nth 1 rev_w 0)) (nth 6 rev_w 0))
                     (add32 (sigma0 (nth 14 rev_w 0)) (nth 15 rev_w 0)) in
      schedule k (w :: rev_w)
  end.

Definition State := (Z * Z * Z * Z * Z * Z * Z * Z)%type.

Definition root_bits (p : Z) : Z := w32 (Z.sqrt (p * 2 ^ 64)).

Definition H0 : State :=
  Eval vm_compute in
    (root_bits 2, root_bits 3, root_bits 5, root_bits 7,
     root_bits 11, root_bits 13, root_bits 17, root_bits 19).

Definition round (st : State) (kw : Z * Z) : State :=
  let '(a, b, c, d, e, f, g, h) := st in
  let t1 := add32 (add32 (add32 h (Sigma1 e)) (add32 (Ch e f g) (fst kw))) (snd kw) in
  let t2 := add32 (Sigma0 a) (Maj a b c) in
  (add32 t1 t2, a, b, c, add32 d t1, e, f, g).

Definition compress (hs : State) (block : list Z) : State :=
  let w := rev (schedule 48 (rev block)) in
  let '(a, b, c, d, e, f, g, h) := fold_left round (combine K w) hs in
  let '(a0, b0, c0, d0, e0, f0, g0, h0) := hs in
  (add32 a0 a, add32 b0 b, add32 c0 c, add32 d0 d,
   add32 e0 e, add32 f0 f, add32 g0 g, add32 h0 h).

Fixpoint blocks (fuel : nat) (hs : State) (ws : list Z) : State :=
  match fuel with
  | O => hs
  | S k =>
      match ws with
      | [] => hs
      | _ => blocks k (compress hs (firstn 16 ws)) (skipn 16 ws)
      end
  end.

Definition digest_words (msg : list byte) : list Z :=
  let p := pad msg in
  let ws := words (List.length p) p in
  let '(a, b, c, d, e, f, g, h) :=
    blocks (List.length ws) H0 ws in
  [a; b; c; d; e; f; g; h].

Definition hex_digit (x : Z) : ascii :=
  nth (Z.to_nat x)
      ["0"; "1"; "2"; "3"; "4"; "5"; "6"; "7"; "8"; "9"; "a"; "b"; "c"; "d"; "e"; "f"]%char
      "0"%char.

Fixpoint hex (n : nat) (x : Z) : string :=
  match n with
  | O => EmptyString
  | S k => (hex k (Z.shiftr x 4) ++ String (hex_digit (Z.land x 0xf)) EmptyString)%string
  end.

Definition hexdigest (msg : list byte) : string :=
  fold_right (fun w acc => (hex 8 w ++ acc)%string) EmptyString (digest_words msg).

End Sha256.

(* ------------------------------------------------------------------ *)
(** ** views.py: [video_upload] *)

(** The characters [str.strip()] removes, among the first 256 code points. *)
Definition is_space (c : ascii) : bool :=
  let n := nat_of_ascii c in
  ((9 <=? n) && (n <=? 13) || (28 <=? n) && (n <=? 32)
   || (n =? 133) || (n =? 160))%nat.

Fixpoint lstrip (s : string) : string :=
  match s with
  | EmptyString => EmptyString
  | String c r => if is_space c then lstrip r else s
  end.

Fixpoint rstrip (s : string) : string :=
  match s with
  | EmptyString => EmptyString
  | String c r =>
      match rstrip r with
      | EmptyString => if is_space c then EmptyString else String c EmptyString
      | r' => String c r'
      end
  end.

Definition strip (s : string) : string := rstrip (lstrip s).

(** [n] in decimal on [width] digits, zero-padded ([%Y], [%m], [%d]; a date
    has a year below 10000). *)
Fixpoint zfill (width n : nat) : string :=
  match width with
  | O => EmptyString
  | S w => (zfill w (n / 10) ++ String (ascii_of_nat (48 + n mod 10)) EmptyString)%string
  end.

(** [date.strftime('%Y/%m/%d')] *)
Definition strftime_Ymd (d : Date) : string :=
  (zfill 4 (year d) ++ "/" ++ zfill 2 (month d) ++ "/" ++ zfill 2 (day d))%string.

(** [str(n)] for an integer. *)
Definition str (n : Z) : string := NilEmpty.string_of_int (Z.to_int n).

(** An entry of [request.FILES]; it is falsy when it has no name. *)
Record UploadedFile := mkUploadedFile {
  upload_name : string;
  upload_content : list byte }.

Definition truthy_file (f : option UploadedFile) : bool :=
  match f with
  | Some u => match upload_name u with EmptyString => false | _ => true end
  | None => false
  end.

(** [uploaded_file.read()] *)
Definition read (f : option UploadedFile) : list byte :=
  match f with Some u => upload_content u | None => [] end.

(** [open(storage_path, 'wb')] then [f.write(file_content)] *)
Definition write_file (d : Disk) (path : string) (content : list byte) : Disk :=
  (path, content) :: filter (fun e => negb (String.eqb (fst e) path)) d.

Definition read_file (d : Disk) (path : string) : option (list byte) :=
  option_map snd (find (fun e => String.eqb (fst e) path) d).

(** [date_path/storage_filename], the path relative to [VIDEOS_ROOT]. *)
Definition relative_path (date : Date) (file_content : list byte) (ext : string) : string :=
  let file_hash := Sha256.hexdigest file_content in
  let date_path := strftime_Ymd date in
  let storage_filename := (file_hash ++ "." ++ ext)%string in
  (date_path ++ "/" ++ storage_filename)%string.

Definition video_upload (s : Store) (event_pk : Z)
           (FILES_video : option UploadedFile) (POST_filename : option string)
  : Store * Response :=
  match find_event s event_pk with
  | None => (s, Http404)
  | Some event =>
      let filename := strip (get POST_filename EmptyString) in
      if negb (truthy_file FILES_video)
      then (s, JsonError "No video file provided" 400)
      else if String.eqb filename EmptyString
      then (s, JsonError "No filename provided" 400)
      else
        let file_content := read FILES_video in
        let (is_valid, detected_ext) := _validate_video_file file_content in
        if negb is_valid
        then (s, JsonError "Invalid video file format" 400)
        else
          let path :=
            relative_path (event_date event) file_content (get detected_ext "None"%string) in
          let video :=
            mkVideo (video_seq s) (event_id event) filename path
                    (Some (Z.of_nat (List.length file_content))) in
          (mkStore (events s) (videos s ++ [video]) (actions s) (analyses s)
                   (marks s) (mark_seq s) (video_seq s + 1)
                   (write_file (disk s) path file_content),
           JsonVideo (video_id video) ("/events/" ++ str event_pk))
  end.

(* ------------------------------------------------------------------ *)
(** ** Notions the properties are stated with *)

(** The tag [ftyp] at [offset], followed by a four-byte [brand]. *)
Definition ftyp_box_at (content : list byte) (offset : nat) (brand : list byte) : Prop :=
  slice content offset (offset + 4) = bytes_of "ftyp"
  /\ slice content (offset + 4) (offset + 8) = brand
  /\ List.length brand = 4%nat.

Definition ext_of_brand (brand : list byte) : string :=
  if bytes_eqb brand (bytes_of "qt  ") then "mov"%string else "mp4"%string.




(** The point total of an analysis: the sum of [Mark.points] over its marks. *)
Definition total_points (s : Store) (analysis : Analysis) : option Z :=
  fold_right (fun m acc => match Mark_points s m, acc with
                           | Some p, Some t => Some (p + t)
                           | _, _ => None
                           end)
             (Some 0) (analysis_marks s analysis).



(** The body is valid JSON and holds no [marks] key. *)
Definition json_without_marks (body : Body) : Prop :=
  body = JsonNotObject \/ body = JsonObject None.


(* ------------------------------------------------------------------ *)
(** ** The steps of [analysis_save_marks], named *)

(** The test of the [if] that answers [Invalid action ID]. *)
Definition refused (s : Store) (marks_data : list MarkData) : bool :=
  let action_ids := set_of (map md_action_id marks_data) in
  nonempty action_ids && negb (set_eqb action_ids (set_of (existing_action_ids s action_ids))).

(** The entries as they are inserted: in time order, each with its delta. *)
Definition sorted_marks_of (body : option (list MarkData)) : list MarkData :=
  set_deltas 0 (sorted time_leb (get body [])).

Definition saved_store (s : Store) (analysis : Analysis) (body : option (list MarkData)) : Store :=
  bulk_create (delete_marks s analysis) analysis (sorted_marks_of body).

(** The response entry of a stored row whose action exists. *)
Definition entry_of (s : Store) (m : Mark) : SavedMark :=
  mkSavedMark (mark_id m) (mark_action_id m)
              (match find_action s (mark_action_id m) with
               | Some a => code a
               | None => EmptyString
               end)
              (time_seconds m) (delta_seconds m) (is_failure m) (count m).

(* ------------------------------------------------------------------ *)
(** ** A store and requests to run the views on *)

Definition example_store : Store :=
  mkStore [mkEvent 1 "Regional" (mkDate 2026 1 1); mkEvent 2 "Final" (mkDate 2026 1 2)]
          []
          [mkAction 7 "SHOT" "Shot" 10 0]
          [mkAnalysis 3 1 1 "Red" "Q1"; mkAnalysis 4 1 1 "Blue" "Q1"]
          [mkMark 1 3 7 50000 50000 false 1; mkMark 2 4 7 50000 50000 false 1]
          3 1 [].

(** The example of the specification: a shot at 12.5 s and a failed one at 3.0 s. *)
Definition spec_example_marks : list MarkData :=
  [mkMarkData 7 (25 # 2) None None None; mkMarkData 7 (3 # 1) None (Some true) None].

Definition spec_example_saved : list SavedMark :=
  [mkSavedMark 3 7 "SHOT" 30000 30000 true 1; mkSavedMark 4 7 "SHOT" 125000 95000 false 1].



Definition unknown_action_marks : list MarkData :=
  [mkMarkData 7 (1 # 1) None None None; mkMarkData 99 (2 # 1) None None None].



Definition quicktime_bytes : list byte := bytes_of "0000ftypqt  0000".

Definition isom_at_8_bytes : list byte := bytes_of "00000000ftypisom".

Definition two_tags : list byte := bytes_of "0000ftypftypqt  ".

Definition quicktime_file : UploadedFile := mkUploadedFile "clip.mov" quicktime_bytes.

(* ------------------------------------------------------------------ *)
(** ** views.py: the signatures and the extensions *)

Definition ALLOWED_EXTENSIONS : list string :=
  ["mp4"; "m4v"; "mov"; "avi"; "webm"; "mkv"; "mpg"; "mpeg"]%string.

Definition EBML_magic : list byte := [x1a; x45; xdf; xa3].
Definition MPEG_pack : list byte := [x00; x00; x01; xba].
Definition MPEG_sequence : list byte := [x00; x00; x01; xb3].

(** The content carries one of the signatures the sniffing looks for. *)
Definition known_signature (content : list byte) : Prop :=
  slice content 4 8 = bytes_of "ftyp"
  \/ ((13 <= List.length content)%nat /\ slice content 8 12 = bytes_of "ftyp")
  \/ slice content 0 4 = EBML_magic
  \/ (slice content 0 4 = bytes_of "RIFF" /\ slice content 8 12 = bytes_of "AVI ")
  \/ slice content 0 4 = MPEG_pack
  \/ slice content 0 4 = MPEG_sequence.

(** No [ftyp] tag where the loop looks for one. *)
Definition no_ftyp_tag (content : list byte) : Prop :=
  slice content 4 8 <> bytes_of "ftyp"
  /\ ((List.length content <= 12)%nat \/ slice content 8 12 <> bytes_of "ftyp").

(* ------------------------------------------------------------------ *)
(** ** Notions for the upload *)

(** The store after an accepted upload of [content], detected as [ext], to
    [event] under the display name [filename]. *)
Definition uploaded_store (s : Store) (event : Event) (filename : string)
           (content : list byte) (ext : string) : Store :=
  mkStore (events s)
          (videos s ++ [mkVideo (video_seq s) (event_id event) filename
                                (relative_path (event_date event) content ext)
                                (Some (Z.of_nat (List.length content)))])
          (actions s) (analyses s) (marks s) (mark_seq s) (video_seq s + 1)
          (write_file (disk s) (relative_path (event_date event) content ext) content).

Definition chars (s : string) : list ascii := list_ascii_of_string s.

Definition is_digit (c : ascii) : bool :=
  let n := nat_of_ascii c in ((48 <=? n) && (n <=? 57))%nat.



Definition head_char (s : string) : option ascii :=
  match s with
  | EmptyString => None
  | String c _ => Some c
  end.

Fixpoint last_char (s : string) : option ascii :=
  match s with
  | EmptyString => None
  | String c EmptyString => Some c
  | String _ r => last_char r
  end.

(** Not empty, and no white space at either end. *)
Definition trimmed (s : string) : Prop :=
  s <> EmptyString
  /\ (forall c, head_char s = Some c -> is_space c = false)
  /\ (forall c, last_char s = Some c -> is_space c = false).

(* ------------------------------------------------------------------ *)
(** ** Notions for the keys and the references of the store *)

Definition find_video (s : Store) (pk : Z) : option Video :=
  find (fun v => video_id v =? pk) (videos s).

(** [n] consecutive integers from [start]. *)
Fixpoint consecutive (start : Z) (n : nat) : list Z :=
  match n with
  | O => []
  | S k => start :: consecutive (start + 1) k
  end.

(** Every key in use is below its sequence, and no key is used twice. *)
Definition keys_ok (s : Store) : Prop :=
  Forall (fun m => mark_id m < mark_seq s) (marks s)
  /\ NoDup (map mark_id (marks s))
  /\ Forall (fun v => video_id v < video_seq s) (videos s)
  /\ NoDup (map video_id (videos s)).

(** Every foreign key of a mark and of a video names a row that exists. *)
Definition refs_ok (s : Store) : Prop :=
  Forall (fun m => (exists a, find_action s (mark_action_id m) = Some a)
                   /\ (exists an, find_analysis s (mark_analysis_id m) = Some an))
         (marks s)
  /\ Forall (fun v => exists e, find_event s (video_event_id v) = Some e) (videos s).

Definition sum (l : list Z) : Z := fold_right Z.add 0 l.

(** The points a submitted mark is worth, with the defaults of the view. *)
Definition submitted_points (s : Store) (md : MarkData) : Z :=
  if get (md_is_failure md) false then 0
  else match find_action s (md_action_id md) with
       | Some a => points a * Z.of_N (get (md_count md) 1%N)
       | None => 0
       end.

(* ------------------------------------------------------------------ *)
(** ** views.py: [analysis_detail] and [event_detail] *)

(** One entry of [actions_data]. *)
Record ActionData := mkActionData {
  ad_id : Z;
  ad_code : string;
  ad_name : string;
  ad_points : Z }.

(** [Action.objects.all()], in the order of [Meta.ordering = ['ordering']]. *)
Definition all_actions (s : Store) : list Action :=
  sorted (fun a b => ordering a <=? ordering b) (actions s).

Definition actions_data (s : Store) : list ActionData :=
  map (fun action => mkActionData (action_id action) (code action)
                                  (action_name action) (points action))
      (all_actions s).

(** The context [analysis_detail] renders: the analysis, [marks_json] and
    [actions_json]; [None] is the 404. *)
Definition analysis_detail (s : Store) (analysis_pk : Z)
  : option (Analysis * list SavedMark * list ActionData) :=
  match find_analysis s analysis_pk with
  | None => None
  | Some analysis => Some (analysis, marks_json s analysis, actions_data s)
  end.

(** [event.analyses] and [event.videos], the rows whose foreign key is the event. *)
Definition event_analyses (s : Store) (event : Event) : list Analysis :=
  filter (fun a => analysis_event_id a =? event_id event) (analyses s).

Definition event_videos (s : Store) (event : Event) : list Video :=
  filter (fun v => video_event_id v =? event_id event) (videos s).

(** [.order_by('-match')]: descending, rows in table order among equals. *)
Definition order_by_match_desc (l : list Analysis) : list Analysis :=
  sorted (fun a b => String.leb (match_label b) (match_label a)) l.

(** The context [event_detail] renders: the event, its analyses and its
    unlinked videos; [None] is the 404. *)
Definition event_detail (s : Store) (event_pk : Z)
  : option (Event * list Analysis * list Video) :=
  match find_event s event_pk with
  | None => None
  | Some event =>
      let analyses := order_by_match_desc (event_analyses s event) in
      let linked_video_ids := map analysis_video_id analyses in
      let unlinked_videos :=
        filter (fun v => negb (mem (video_id v) linked_video_ids)) (event_videos s event) in
      Some (event, analyses, unlinked_videos)
  end.

(* ------------------------------------------------------------------ *)
(** ** views.py: [analysis_create] *)

(** The store together with the sequence of the analysis table. *)
Record Site := mkSite {
  site_store : Store;
  analysis_seq : Z }.

(** The answers of [analysis_create]: the 404, the two redirects, and the
    [DoesNotExist] that [video.event] raises for a dangling key. *)
Inductive CreateResponse :=
| CreateNotFound
| CreateRaised
| RedirectAnalysisDetail (analysis_pk : Z)
| RedirectVideoDetail (video_pk : Z).

(** [Analysis.objects.create(...)] *)
Definition insert_analysis (s : Store) (analysis : Analysis) : Store :=
  mkStore (events s) (videos s) (actions s) (analyses s ++ [analysis])
          (marks s) (mark_seq s) (video_seq s) (disk s).

Definition analysis_create (site : Site) (video_pk : Z)
           (POST_team POST_match : option string) : Site * CreateResponse :=
  let s := site_store site in
  match find_video s video_pk with
  | None => (site, CreateNotFound)
  | Some video =>
      let team := strip (get POST_team EmptyString) in
      let match_ := strip (get POST_match EmptyString) in
      if negb (String.eqb team EmptyString) && negb (String.eqb match_ EmptyString)
      then
        match find_event s (video_event_id video) with
        | None => (site, CreateRaised)
        | Some event =>
            let analysis :=
              mkAnalysis (analysis_seq site) (event_id event) (video_id video) team match_ in
            (mkSite (insert_analysis s analysis) (analysis_seq site + 1),
             RedirectAnalysisDetail (analysis_id analysis))
        end
      else (site, RedirectVideoDetail video_pk)
  end.

(* ------------------------------------------------------------------ *)
(** ** urls.py *)

(** A [path(route, view, name=...)] entry.  Every entry of the module names
    its view after the function, so the name stands for the view too. *)
Record Pattern := mkPattern {
  pattern_route : string;
  pattern_name : string }.

Definition urlpatterns : list Pattern :=
  [mkPattern "" "event_list";
   mkPattern "events/new" "event_create";
   mkPattern "events/<int:event_id>" "event_detail";
   mkPattern "events/<int:event_id>/upload" "video_upload";
   mkPattern "videos/<int:video_id>" "video_detail";
   mkPattern "videos/<int:video_id>/file" "video_serve";
   mkPattern "videos/<int:video_id>/analyse" "analysis_create";
   mkPattern "analyses/<int:analysis_id>" "analysis_detail";
   mkPattern "analyses/<int:analysis_id>/marks" "analysis_save_marks"]%string.

(** The text before the first [c] of [s], and the text after it. *)
Fixpoint split_at (c : ascii) (s : string) : option (string * string) :=
  match s with
  | EmptyString => None
  | String d r =>
      if Ascii.eqb c d then Some (EmptyString, r)
      else match split_at c r with
           | Some (a, b) => Some (String d a, b)
           | None => None
           end
  end.

(** What a route is to the resolver: a fixed text, or a prefix, an
    [<int:parameter>] converter and a suffix. *)
Inductive Shape :=
| Static (text : string)
| WithInt (prefix parameter suffix : string).

(** The shape of a route with no converter or with one [int] converter, the
    routes the module has; [None] for any other. *)
Definition route_shape (route : string) : option Shape :=
  match split_at "<" route with
  | None => Some (Static route)
  | Some (prefix, rest) =>
      match split_at ">" rest with
      | None => None
      | Some (inner, suffix) =>
          match split_at ":" inner, split_at "<" suffix with
          | Some (converter, parameter), None =>
              if String.eqb converter "int" then Some (WithInt prefix parameter suffix)
              else None
          | _, _ => None
          end
      end
  end.

Fixpoint strip_prefix (p s : string) : option string :=
  match p with
  | EmptyString => Some s
  | String c p' =>
      match s with
      | String d s' => if Ascii.eqb c d then strip_prefix p' s' else None
      | EmptyString => None
      end
  end.

(** The longest run of digits at the start of [s], what the [[0-9]+] of the
    [int] converter takes, and the rest. *)
Fixpoint take_digits (s : string) : Decimal.uint * string :=
  match s with
  | EmptyString => (Decimal.Nil, EmptyString)
  | String c r =>
      let (d, rest) := take_digits r in
      match c with
      | "0"%char => (Decimal.D0 d, rest)
      | "1"%char => (Decimal.D1 d, rest)
      | "2"%char => (Decimal.D2 d, rest)
      | "3"%char => (Decimal.D3 d, rest)
      | "4"%char => (Decimal.D4 d, rest)
      | "5"%char => (Decimal.D5 d, rest)
      | "6"%char => (Decimal.D6 d, rest)
      | "7"%char => (Decimal.D7 d, rest)
      | "8"%char => (Decimal.D8 d, rest)
      | "9"%char => (Decimal.D9 d, rest)
      | _ => (Decimal.Nil, s)
      end
  end.

(** The keyword arguments of a match: none, or the one converted integer. *)
Definition Kwargs := option (string * Z).

(** The whole path against a shape; the converter's [to_python] is [int]. *)
Definition match_shape (shape : Shape) (url : string) : option Kwargs :=
  match shape with
  | Static text => if String.eqb url text then Some None else None
  | WithInt prefix parameter suffix =>
      match strip_prefix prefix url with
      | None => None
      | Some rest =>
          match take_digits rest with
          | (Decimal.Nil, _) => None
          | (digits, rest') =>
              if String.eqb rest' suffix then Some (Some (parameter, Z.of_uint digits))
              else None
          end
      end
  end.

Definition match_pattern (p : Pattern) (url : string) : option Kwargs :=
  match route_shape (pattern_route p) with
  | Some shape => match_shape shape url
  | None => None
  end.

(** The first pattern that matches decides. *)
Fixpoint resolve_in (patterns : list Pattern) (url : string) : option (string * Kwargs) :=
  match patterns with
  | [] => None
  | p :: rest =>
      match match_pattern p url with
      | Some kwargs => Some (pattern_name p, kwargs)
      | None => resolve_in rest url
      end
  end.

(** [resolve]: the path as this module sees it, without the leading slash;
    [None] is [Resolver404]. *)
Definition resolve (url : string) : option (string * Kwargs) :=
  resolve_in urlpatterns url.

(** The text a shape gives for the arguments: the parameter names must be
    the given ones, and the converter's [to_url] is [str]. *)
Definition candidate (shape : Shape) (kwargs : Kwargs) : option string :=
  match shape, kwargs with
  | Static text, None => Some text
  | WithInt prefix parameter suffix, Some (key, value) =>
      if String.eqb key parameter then Some (prefix ++ str value ++ suffix)%string else None
  | _, _ => None
  end.

(** A candidate counts when it matches the pattern it was built from. *)
Fixpoint reverse_in (possibilities : list Pattern) (name : string) (kwargs : Kwargs)
  : option string :=
  match possibilities with
  | [] => None
  | p :: rest =>
      let next := reverse_in rest name kwargs in
      if String.eqb (pattern_name p) name then
        match route_shape (pattern_route p) with
        | Some shape =>
            match candidate shape kwargs with
            | Some text =>
                match match_shape shape text with
                | Some _ => Some text
                | None => next
                end
            | None => next
            end
        | None => next
        end
      else next
  end.

(** [reverse(name, kwargs=...)], the path without the leading slash; the
    resolver fills its lookup table from the patterns in reverse order;
    [None] is [NoReverseMatch]. *)
Definition reverse (name : string) (kwargs : Kwargs) : option string :=
  reverse_in (rev urlpatterns) name kwargs.

(* ------------------------------------------------------------------ *)
(** ** The stable sort *)

Section StableSort.
Context {A : Type} (leb : A -> A -> bool).

Lemma insert_sorted_perm (x : A) (l : list A) :
  Permutation (x :: l) (insert_sorted leb x l).
Proof.
  induction l as [|y r IH]; simpl; [reflexivity|].
  destruct (leb x y); [reflexivity|].
  rewrite perm_swap. now constructor.
Qed.

Lemma sorted_perm (l : list A) : Permutation l (sorted leb l).
Proof.
  induction l as [|x r IH]; simpl; [constructor|].
  etransitivity; [apply perm_skip, IH | apply insert_sorted_perm].
Qed.

Hypothesis leb_total : forall x y, leb x y = false -> leb y x = true.

Lemma insert_sorted_Sorted (x : A) (l : list A) :
  Sorted (fun a b => leb a b = true) l ->
  Sorted (fun a b => leb a b = true) (insert_sorted leb x l).
Proof.
  induction 1 as [|y r Hs IH Hd]; simpl; [repeat constructor|].
  destruct (leb x y) eqn:E.
  - repeat constructor; assumption.
  - constructor; [exact IH|].
    destruct Hd as [|z r' Hz]; simpl.
    + constructor. now apply leb_total.
    + destruct (leb x z); constructor; auto.
Qed.

Lemma sorted_Sorted (l : list A) : Sorted (fun a b => leb a b = true) (sorted leb l).
Proof.
  induction l as [|x r IH]; simpl; [constructor|].
  now apply insert_sorted_Sorted.
Qed.
End StableSort.



(** Sorting a list that is in order already returns it. *)
Lemma sorted_id {A : Type} (leb : A -> A -> bool) (l : list A) :
  Sorted (fun a b => leb a b = true) l -> sorted leb l = l.
Proof.
  induction 1 as [|x r Hs IH Hd]; simpl; [reflexivity|].
  rewrite IH. destruct Hd as [|y r' Hy]; simpl; [reflexivity|].
  now rewrite Hy.
Qed.

Lemma Sorted_impl {A : Type} (R R' : A -> A -> Prop) (l : list A) :
  (forall a b, R a b -> R' a b) -> Sorted R l -> Sorted R' l.
Proof.
  intros H. induction 1 as [|x r Hs IH Hd]; constructor; auto.
  destruct Hd; constructor; auto.
Qed.

Lemma Sorted_map {A B : Type} (f : A -> B) (R : B -> B -> Prop) (l : list A) :
  Sorted (fun a b => R (f a) (f b)) l <-> Sorted R (map f l).
Proof.
  split.
  - induction 1 as [|x r Hs IH Hd]; simpl; constructor; auto.
    destruct Hd; simpl; constructor; auto.
  - induction l as [|x r IH]; simpl; intros H; constructor;
      inversion H as [|? ? Hs Hd]; subst; auto.
    destruct r; simpl in *; constructor. now inversion Hd.
Qed.

(* ------------------------------------------------------------------ *)
(** ** Rounding to four decimal places *)



Lemma to_decimal4_mono (p q : Q) : (p <= q)%Q -> to_decimal4 p <= to_decimal4 q.
Proof.
  intros L. unfold to_decimal4.
  set (x := (p * inject_Z 10000)%Q). set (y := (q * inject_Z 10000)%Q).
  assert (Lxy : (x <= y)%Q).
  { unfold x, y. apply Qmult_le_compat_r; [exact L | discriminate]. }
  pose proof (Qfloor_resp_le _ _ Lxy) as Lf.
  pose proof (Qfloor_le x) as Hx1. pose proof (Qlt_floor x) as Hx2.
  pose proof (Qfloor_le y) as Hy1. pose proof (Qlt_floor y) as Hy2.
  destruct (Z.eq_dec (Qfloor x) (Qfloor y)) as [E|N].
  - rewrite <- E in *.
    destruct (Qcompare_spec (x - inject_Z (Qfloor x)) (1 # 2)) as [Cx|Cx|Cx];
      destruct (Qcompare_spec (y - inject_Z (Qfloor x)) (1 # 2)) as [Cy|Cy|Cy];
      try destruct (Z.even (Qfloor x)); try lia; exfalso; lra.
  - assert (Qfloor x + 1 <= Qfloor y) by lia.
    destruct (Qcompare (x - inject_Z (Qfloor x)) (1 # 2));
      destruct (Qcompare (y - inject_Z (Qfloor y)) (1 # 2));
      try destruct (Z.even (Qfloor x)); try destruct (Z.even (Qfloor y)); lia.
Qed.

(* ------------------------------------------------------------------ *)
(** ** The action check *)

Lemma mem_In (x : Z) (l : list Z) : mem x l = true <-> In x l.
Proof.
  unfold mem. rewrite existsb_exists. split.
  - intros [y [Hy E]]. apply Z.eqb_eq in E. now subst.
  - intros H. exists x. split; [exact H | apply Z.eqb_refl].
Qed.

Lemma find_action_In (s : Store) (pk : Z) :
  (exists a, find_action s pk = Some a) <-> In pk (map action_id (actions s)).
Proof.
  unfold find_action. split.
  - intros [a H]. apply find_some in H. destruct H as [Hin E].
    apply Z.eqb_eq in E. subst. now apply in_map.
  - intros H. apply in_map_iff in H. destruct H as [a [E Hin]].
    destruct (find (fun a0 => action_id a0 =? pk) (actions s)) as [b|] eqn:F.
    + now exists b.
    + apply (find_none _ _ F) in Hin. simpl in Hin.
      rewrite E, Z.eqb_refl in Hin. discriminate.
Qed.

Lemma existing_action_ids_In (s : Store) (ids : list Z) (x : Z) :
  In x (existing_action_ids s ids) <-> In x ids /\ In x (map action_id (actions s)).
Proof.
  unfold existing_action_ids. rewrite !in_map_iff. split.
  - intros [a [E H]]. apply filter_In in H. destruct H as [Hin Hm].
    apply mem_In in Hm. subst. split; [exact Hm | now exists a].
  - intros [Hx [a [E Hin]]]. exists a. split; [exact E|].
    apply filter_In. split; [exact Hin|]. apply mem_In. now rewrite E.
Qed.

Lemma refused_false (s : Store) (marks_data : list MarkData) :
  refused s marks_data = false ->
  forall m, In m marks_data -> exists a, find_action s (md_action_id m) = Some a.
Proof.
  unfold refused, set_of. intros H m Hm.
  assert (Hid : In (md_action_id m) (nodup Z.eq_dec (map md_action_id marks_data)))
    by (apply nodup_In; now apply in_map).
  apply andb_false_iff in H. destruct H as [H|H].
  - destruct (nodup Z.eq_dec (map md_action_id marks_data)); [destruct Hid | discriminate].
  - apply negb_false_iff in H. unfold set_eqb in H.
    apply andb_true_iff in H. destruct H as [H _].
    rewrite forallb_forall in H. specialize (H _ Hid).
    apply mem_In, nodup_In, existing_action_ids_In in H.
    apply find_action_In. tauto.
Qed.

Lemma refused_true (s : Store) (marks_data : list MarkData) (m : MarkData) :
  In m marks_data -> find_action s (md_action_id m) = None ->
  refused s marks_data = true.
Proof.
  unfold refused, set_of. intros Hm Hn.
  assert (Hid : In (md_action_id m) (nodup Z.eq_dec (map md_action_id marks_data)))
    by (apply nodup_In; now apply in_map).
  apply andb_true_iff. split.
  - destruct (nodup Z.eq_dec (map md_action_id marks_data)); [destruct Hid | reflexivity].
  - apply negb_true_iff. unfold set_eqb. apply andb_false_iff. left.
    apply not_true_is_false. intros H. rewrite forallb_forall in H.
    specialize (H _ Hid). apply mem_In, nodup_In, existing_action_ids_In in H.
    destruct H as [_ H]. apply find_action_In in H. destruct H as [a Ha]. congruence.
Qed.

(* ------------------------------------------------------------------ *)
(** ** What a save writes and returns *)

Lemma find_analysis_id (s : Store) (pk : Z) (analysis : Analysis) :
  find_analysis s pk = Some analysis -> analysis_id analysis = pk.
Proof.
  unfold find_analysis. intros H. apply find_some in H. now apply Z.eqb_eq.
Qed.

Lemma save_unfold (s : Store) (pk : Z) (analysis : Analysis) (data : option (list MarkData)) :
  find_analysis s pk = Some analysis ->
  analysis_save_marks s pk (JsonObject data) =
  if refused s (get data [])
  then (s, JsonError "Invalid action ID" 400)
  else (saved_store s analysis data, JsonMarks (marks_json (saved_store s analysis data) analysis)).
Proof.
  intros H. unfold analysis_save_marks. rewrite H. reflexivity.
Qed.

Lemma save_inv (s s' : Store) (pk : Z) (body : Body) (saved : list SavedMark) :
  analysis_save_marks s pk body = (s', JsonMarks saved) ->
  exists analysis data,
    find_analysis s pk = Some analysis /\ body = JsonObject data
    /\ refused s (get data []) = false
    /\ s' = saved_store s analysis data
    /\ saved = marks_json s' analysis.
Proof.
  intros H. destruct (find_analysis s pk) as [analysis|] eqn:F.
  - destruct body as [| |data].
    + unfold analysis_save_marks in H. rewrite F in H. discriminate.
    + unfold analysis_save_marks in H. rewrite F in H. discriminate.
    + rewrite (save_unfold _ _ _ _ F) in H.
      destruct (refused s (get data [])) eqn:R; [discriminate|].
      injection H as <- <-. exists analysis, data. auto.
  - unfold analysis_save_marks in H. rewrite F in H. discriminate.
Qed.

Lemma new_marks_analysis (next : Z) (analysis : Analysis) (l : list MarkData) :
  Forall (fun m => mark_analysis_id m = analysis_id analysis) (new_marks next analysis l).
Proof.
  revert next. induction l as [|x r IH]; intros next; simpl; constructor; auto.
Qed.

Lemma filter_all {A : Type} (p : A -> bool) (l : list A) :
  Forall (fun x => p x = true) l -> filter p l = l.
Proof.
  induction 1 as [|x r Hx _ IH]; simpl; [reflexivity|]. now rewrite Hx, IH.
Qed.

Lemma filter_none {A : Type} (p : A -> bool) (l : list A) :
  Forall (fun x => p x = false) l -> filter p l = [].
Proof.
  induction 1 as [|x r Hx _ IH]; simpl; [reflexivity|]. now rewrite Hx.
Qed.

Lemma filter_filter_negb {A : Type} (p : A -> bool) (l : list A) :
  filter p (filter (fun x => negb (p x)) l) = [].
Proof.
  apply filter_none, Forall_forall. intros x Hx.
  apply filter_In in Hx. destruct Hx as [_ Hx]. now apply negb_true_iff.
Qed.

(** After a save the marks of the analysis are the inserted rows, and nothing else. *)
Lemma analysis_marks_saved (s : Store) (analysis : Analysis) (data : option (list MarkData)) :
  analysis_marks (saved_store s analysis data) analysis =
  new_marks (mark_seq s) analysis (sorted_marks_of data).
Proof.
  unfold analysis_marks, saved_store, bulk_create, delete_marks; simpl.
  rewrite filter_app, filter_filter_negb; simpl.
  apply filter_all. eapply Forall_impl; [|apply new_marks_analysis].
  simpl. intros m ->. apply Z.eqb_refl.
Qed.

Lemma select_related_entries (s : Store) (l : list Mark) :
  (forall m, In m l -> exists a, find_action s (mark_action_id m) = Some a) ->
  map fst (select_related_action s l) = l
  /\ map saved_mark (select_related_action s l) = map (entry_of s) l.
Proof.
  induction l as [|m r IH]; intros H; simpl; [auto|].
  destruct (H m (or_introl eq_refl)) as [a Ha].
  destruct IH as [IH1 IH2]; [intros; apply H; now right|].
  unfold entry_of at 1. rewrite Ha. simpl. now rewrite IH1, IH2.
Qed.

Lemma time_leb_total (x y : MarkData) : time_leb x y = false -> time_leb y x = true.
Proof.
  unfold time_leb. intros H. apply Qle_bool_iff.
  destruct (Qlt_le_dec (md_time_seconds x) (md_time_seconds y)) as [L|L].
  - apply Qlt_le_weak in L. apply Qle_bool_iff in L. congruence.
  - exact L.
Qed.

Lemma set_deltas_times (prev : Q) (l : list MarkData) :
  map md_time_seconds (set_deltas prev l) = map md_time_seconds l.
Proof.
  revert prev. induction l as [|x r IH]; intros prev; simpl; [reflexivity|].
  now rewrite IH.
Qed.

Lemma set_deltas_action_ids (prev : Q) (l : list MarkData) :
  map md_action_id (set_deltas prev l) = map md_action_id l.
Proof.
  revert prev. induction l as [|x r IH]; intros prev; simpl; [reflexivity|].
  now rewrite IH.
Qed.

Lemma new_marks_times (next : Z) (analysis : Analysis) (l : list MarkData) :
  map time_seconds (new_marks next analysis l) =
  map (fun md => to_decimal4 (md_time_seconds md)) l.
Proof.
  revert next. induction l as [|x r IH]; intros next; simpl; [reflexivity|].
  now rewrite IH.
Qed.

Lemma new_marks_action_ids (next : Z) (analysis : Analysis) (l : list MarkData) :
  map mark_action_id (new_marks next analysis l) = map md_action_id l.
Proof.
  revert next. induction l as [|x r IH]; intros next; simpl; [reflexivity|].
  now rewrite IH.
Qed.

(** The submitted times in the order of the insert are ascending. *)
Lemma sorted_marks_times_Sorted (data : option (list MarkData)) :
  Sorted Qle (map md_time_seconds (sorted_marks_of data)).
Proof.
  unfold sorted_marks_of. rewrite set_deltas_times.
  apply (proj1 (Sorted_map md_time_seconds Qle _)).
  eapply Sorted_impl; [|apply (sorted_Sorted time_leb time_leb_total)].
  intros a b. apply Qle_bool_iff.
Qed.

Lemma Sorted_Qle_decimal4 (l : list Q) :
  Sorted Qle l -> Sorted Z.le (map to_decimal4 l).
Proof.
  induction 1 as [|x r Hs IH Hd]; simpl; constructor; auto.
  destruct Hd; simpl; constructor. now apply to_decimal4_mono.
Qed.

Lemma new_marks_Sorted (next : Z) (analysis : Analysis) (data : option (list MarkData)) :
  Sorted Z.le (map time_seconds (new_marks next analysis (sorted_marks_of data))).
Proof.
  rewrite new_marks_times, <- (map_map md_time_seconds to_decimal4).
  apply Sorted_Qle_decimal4, sorted_marks_times_Sorted.
Qed.

Lemma order_by_Sorted_id (rows : list (Mark * Action)) :
  Sorted Z.le (map time_seconds (map fst rows)) -> order_by_time_seconds rows = rows.
Proof.
  intros H. apply sorted_id. rewrite map_map in H.
  apply (proj2 (Sorted_map (fun r => time_seconds (fst r)) Z.le _)) in H.
  eapply Sorted_impl; [|exact H].
  intros a b. apply Z.leb_le.
Qed.

(** The response of an accepted save lists the inserted rows in the order of
    the insert. *)
Lemma marks_json_saved (s : Store) (analysis : Analysis) (data : option (list MarkData)) :
  refused s (get data []) = false ->
  marks_json (saved_store s analysis data) analysis =
  map (entry_of s) (new_marks (mark_seq s) analysis (sorted_marks_of data)).
Proof.
  intros R. unfold marks_json. rewrite analysis_marks_saved.
  set (rows := new_marks (mark_seq s) analysis (sorted_marks_of data)).
  assert (Hall : forall m, In m rows ->
                 exists a, find_action (saved_store s analysis data) (mark_action_id m) = Some a).
  { intros m Hm. apply find_action_In. change (actions (saved_store s analysis data)) with (actions s).
    apply (in_map mark_action_id) in Hm. unfold rows in Hm.
    rewrite new_marks_action_ids in Hm. unfold sorted_marks_of in Hm.
    rewrite set_deltas_action_ids in Hm. apply in_map_iff in Hm.
    destruct Hm as [md [E Hmd]]. rewrite <- E. apply find_action_In.
    apply (refused_false _ _ R).
    eapply Permutation_in; [symmetry; apply sorted_perm | exact Hmd]. }
  destruct (select_related_entries _ _ Hall) as [E1 E2].
  rewrite order_by_Sorted_id by (rewrite E1; apply new_marks_Sorted).
  rewrite E2. apply map_ext. reflexivity.
Qed.




Lemma entries_deltas (s : Store) (next : Z) (analysis : Analysis) (l : list MarkData) :
  map sm_delta_seconds (map (entry_of s) (new_marks next analysis l)) =
  map (fun md => to_decimal4 (get (md_delta_seconds md) 0%Q)) l.
Proof.
  revert next. induction l as [|x r IH]; intros next; simpl; [reflexivity|].
  now rewrite IH.
Qed.

Lemma points_new_marks (s1 s2 : Store) (analysis : Analysis) (l : list MarkData) :
  actions s1 = actions s2 ->
  forall n1 n2,
    map (Mark_points s1) (new_marks n1 analysis l) =
    map (Mark_points s2) (new_marks n2 analysis l).
Proof.
  intros E. induction l as [|x r IH]; intros n1 n2; simpl; [reflexivity|].
  rewrite (IH (n1 + 1) (n2 + 1)). f_equal.
  unfold Mark_points, find_action; simpl. now rewrite E.
Qed.

Lemma total_points_map (s : Store) (analysis : Analysis) :
  total_points s analysis =
  fold_right (fun p acc => match p, acc with
                           | Some p, Some t => Some (p + t)
                           | _, _ => None
                           end)
             (Some 0) (map (Mark_points s) (analysis_marks s analysis)).
Proof.
  unfold total_points. induction (analysis_marks s analysis) as [|m r IH]; simpl;
    [reflexivity | now rewrite IH].
Qed.



(** With nothing to insert, the save only deletes. *)
Lemma saved_store_no_marks (s : Store) (analysis : Analysis) (data : option (list MarkData)) :
  get data [] = [] ->
  sorted_marks_of data = []
  /\ marks (saved_store s analysis data)
     = filter (fun m => negb (mark_analysis_id m =? analysis_id analysis)) (marks s)
  /\ mark_seq (saved_store s analysis data) = mark_seq s.
Proof.
  intros E.
  assert (Es : sorted_marks_of data = [])
    by (unfold sorted_marks_of; rewrite E; reflexivity).
  unfold saved_store. rewrite Es. simpl.
  now rewrite app_nil_r, Z.add_0_r.
Qed.

(* ------------------------------------------------------------------ *)
(** ** The mark-save protocol *)


(** C2: when a submitted mark names an action id that no action row has, the
    answer is the 400 response and the store, so the persisted marks of the
    analysis too, is what it was. *)
Theorem save_marks_unknown_action_rejected
  (s : Store) (pk : Z) (analysis : Analysis) (marks_data : list MarkData) (m : MarkData)
  (Han : find_analysis s pk = Some analysis)
  (Hin : In m marks_data)
  (Hno : forall a, In a (actions s) -> action_id a <> md_action_id m) :
  analysis_save_marks s pk (JsonObject (Some marks_data))
  = (s, JsonError "Invalid action ID" 400).
Proof.
  rewrite (save_unfold _ _ _ _ Han). simpl.
  rewrite (refused_true s marks_data m Hin); [reflexivity|].
  destruct (find_action s (md_action_id m)) as [a|] eqn:F; [|reflexivity].
  unfold find_action in F. apply find_some in F. destruct F as [Ha Hid].
  apply Z.eqb_eq in Hid. now apply Hno in Ha.
Qed.

(** C3: the points of a mark are zero when [is_failure] is set, whatever the
    count and the action, and the points of the referenced action times the
    count otherwise; the value is computed from the mark's stored fields and
    the action row alone, and nothing is written. *)
Theorem Mark_points_spec (s : Store) (m : Mark) :
  (is_failure m = true -> Mark_points s m = Some 0)
  /\ (forall a, is_failure m = false ->
                find_action s (mark_action_id m) = Some a ->
                Mark_points s m = Some (points a * Z.of_N (count m)))
  /\ (forall s2 m2, is_failure m2 = is_failure m -> count m2 = count m ->
                    find_action s2 (mark_action_id m2) = find_action s (mark_action_id m) ->
                    Mark_points s2 m2 = Mark_points s m).
Proof.
  unfold Mark_points. repeat split.
  - now intros ->.
  - now intros a -> ->.
  - now intros s2 m2 -> -> ->.
Qed.

(** C4: an empty mark list is accepted: the response is the success response
    with no marks, the analysis has no mark left, and the mark table is the old
    one without the marks of the analysis (no row is created). *)
Theorem save_marks_empty_list
  (s : Store) (pk : Z) (analysis : Analysis)
  (Han : find_analysis s pk = Some analysis) :
  exists s',
    analysis_save_marks s pk (JsonObject (Some [])) = (s', JsonMarks [])
    /\ analysis_marks s' analysis = []
    /\ marks s' = filter (fun m => negb (mark_analysis_id m =? pk)) (marks s)
    /\ mark_seq s' = mark_seq s.
Proof.
  exists (saved_store s analysis (Some [])).
  destruct (saved_store_no_marks s analysis (Some []) eq_refl) as [Es [Hm Hq]].
  rewrite (find_analysis_id _ _ _ Han) in Hm.
  rewrite (save_unfold _ _ _ _ Han).
  change (refused s (get (Some []) [])) with false. cbv iota.
  rewrite (marks_json_saved s analysis (Some []) eq_refl), analysis_marks_saved, Es.
  repeat split; assumption.
Qed.

(** C10, as amended: a body that is a JSON object without the [marks] key is
    handled as the empty list: same outcome, which is the success response
    with no marks and an analysis left without marks. *)
Theorem save_marks_missing_key
  (s : Store) (pk : Z) (analysis : Analysis)
  (Han : find_analysis s pk = Some analysis) :
  analysis_save_marks s pk (JsonObject None)
  = analysis_save_marks s pk (JsonObject (Some []))
  /\ exists s',
      analysis_save_marks s pk (JsonObject None) = (s', JsonMarks [])
      /\ analysis_marks s' analysis = []
      /\ marks s' = filter (fun m => negb (mark_analysis_id m =? pk)) (marks s)
      /\ mark_seq s' = mark_seq s.
Proof.
  split; [reflexivity|].
  exists (saved_store s analysis None).
  destruct (saved_store_no_marks s analysis None eq_refl) as [Es [Hm Hq]].
  rewrite (find_analysis_id _ _ _ Han) in Hm.
  rewrite (save_unfold _ _ _ _ Han).
  change (refused s (get None [])) with false. cbv iota.
  rewrite (marks_json_saved s analysis None eq_refl), analysis_marks_saved, Es.
  repeat split; assumption.
Qed.

(** C5: saving a body again right after it was accepted is accepted again,
    and returns the same [delta_seconds] values and leaves the same point
    total (the row ids are new ones). *)
Theorem save_marks_twice
  (s s1 : Store) (pk : Z) (data : option (list MarkData)) (saved1 : list SavedMark)
  (H1 : analysis_save_marks s pk (JsonObject data) = (s1, JsonMarks saved1)) :
  exists s2 saved2 analysis,
    find_analysis s pk = Some analysis
    /\ analysis_save_marks s1 pk (JsonObject data) = (s2, JsonMarks saved2)
    /\ map sm_delta_seconds saved2 = map sm_delta_seconds saved1
    /\ total_points s2 analysis = total_points s1 analysis.
Proof.
  apply save_inv in H1.
  destruct H1 as [analysis [data' [F [E [R [-> ->]]]]]]. injection E as <-.
  set (s1 := saved_store s analysis data).
  assert (F1 : find_analysis s1 pk = Some analysis) by exact F.
  assert (R1 : refused s1 (get data []) = false) by exact R.
  exists (saved_store s1 analysis data), (marks_json (saved_store s1 analysis data) analysis),
    analysis.
  split; [exact F|]. split; [|split].
  - rewrite (save_unfold _ _ _ _ F1), R1. reflexivity.
  - rewrite (marks_json_saved _ _ _ R1). unfold s1.
    rewrite (marks_json_saved _ _ _ R). now rewrite !entries_deltas.
  - rewrite !total_points_map. unfold s1. rewrite !analysis_marks_saved. f_equal.
    apply points_new_marks. reflexivity.
Qed.



(** C9: whatever the request and the answer, a save for one analysis leaves
    the event, video, action and analysis tables as they were, and the marks
    of every other analysis as they were. *)
Theorem save_marks_frame
  (s : Store) (pk : Z) (body : Body) :
  let s' := fst (analysis_save_marks s pk body) in
  events s' = events s /\ videos s' = videos s
  /\ actions s' = actions s /\ analyses s' = analyses s
  /\ disk s' = disk s
  /\ forall other, other <> pk ->
       filter (fun m => mark_analysis_id m =? other) (marks s')
       = filter (fun m => mark_analysis_id m =? other) (marks s).
Proof.
  simpl. destruct (find_analysis s pk) as [analysis|] eqn:F.
  - destruct body as [| |data].
    + unfold analysis_save_marks. rewrite F. simpl. auto 10.
    + unfold analysis_save_marks. rewrite F. simpl. auto 10.
    + rewrite (save_unfold _ _ _ _ F).
      destruct (refused s (get data [])); simpl; [auto 10|].
      repeat split; try reflexivity.
      intros other Ho. rewrite filter_app.
      rewrite (filter_none _ (new_marks _ _ _)).
      * rewrite app_nil_r, (find_analysis_id _ _ _ F).
        induction (marks s) as [|m r IH]; simpl; [reflexivity|].
        destruct (mark_analysis_id m =? pk) eqn:E1; simpl.
        -- apply Z.eqb_eq in E1. rewrite E1.
           apply Z.eqb_neq in Ho. rewrite Z.eqb_sym in Ho. now rewrite Ho.
        -- now rewrite IH.
      * eapply Forall_impl; [|apply new_marks_analysis].
        simpl. intros m ->. rewrite (find_analysis_id _ _ _ F).
        apply Z.eqb_neq. congruence.
  - unfold analysis_save_marks. rewrite F. simpl. auto 10.
Qed.

(* ------------------------------------------------------------------ *)
(** ** Video ingestion *)

Lemma bytes_eqb_eq (a b : list byte) : bytes_eqb a b = true <-> a = b.
Proof.
  unfold bytes_eqb. destruct (list_eq_dec Byte.byte_eq_dec a b); split; congruence.
Qed.

Lemma bytes_eqb_neq (a b : list byte) : bytes_eqb a b = false <-> a <> b.
Proof.
  unfold bytes_eqb. destruct (list_eq_dec Byte.byte_eq_dec a b); split; congruence.
Qed.

(** The header has the bytes of the content at every position below 32. *)
Lemma slice_header (content : list byte) (i j : nat) :
  (j <= 32)%nat -> slice (slice content 0 32) i j = slice content i j.
Proof.
  intros H. unfold slice. change (skipn 0 content) with content. rewrite Nat.sub_0_r.
  rewrite skipn_firstn_comm, firstn_firstn. f_equal. lia.
Qed.

Lemma header_length (content : list byte) :
  List.length (slice content 0 32) = Nat.min 32 (List.length content).
Proof. unfold slice. cbn [skipn Nat.sub]. apply length_firstn. Qed.

Lemma ftyp_box_length (content brand : list byte) (offset : nat) :
  ftyp_box_at content offset brand -> (offset + 8 <= List.length content)%nat.
Proof.
  intros [_ [Hb Hl]]. rewrite <- Hb in Hl. unfold slice in Hl.
  rewrite length_firstn, length_skipn in Hl. lia.
Qed.

Lemma ftyp_scan_hit (header : list byte) (offset : nat) (rest : list nat) :
  (offset + 4 < List.length header)%nat ->
  slice header offset (offset + 4) = bytes_of "ftyp" ->
  ftyp_scan header (offset :: rest)
  = Some (ext_of_brand (slice header (offset + 4) (offset + 8))).
Proof.
  intros Hl Ht. cbn [ftyp_scan].
  apply Nat.ltb_lt in Hl. apply bytes_eqb_eq in Ht. rewrite Hl, Ht. simpl andb.
  unfold ext_of_brand. now destruct (bytes_eqb _ (bytes_of "qt  ")).
Qed.

Lemma ftyp_scan_miss (header : list byte) (offset : nat) (rest : list nat) :
  slice header offset (offset + 4) <> bytes_of "ftyp" ->
  ftyp_scan header (offset :: rest) = ftyp_scan header rest.
Proof.
  intros Ht. cbn [ftyp_scan]. apply bytes_eqb_neq in Ht.
  now rewrite Ht, andb_false_r.
Qed.

Lemma validate_short (content : list byte) :
  (List.length content < 12)%nat -> _validate_video_file content = (false, None).
Proof.
  intros H. unfold _validate_video_file. apply Nat.ltb_lt in H. now rewrite H.
Qed.

Lemma validate_ftyp_scan (content : list byte) (ext : string) :
  (12 <= List.length content)%nat ->
  ftyp_scan (slice content 0 32) [4; 8]%nat = Some ext ->
  _validate_video_file content = (true, Some ext).
Proof.
  intros Hl Hs. unfold _validate_video_file.
  apply Nat.ltb_ge in Hl. now rewrite Hl, Hs.
Qed.

(** C7, as amended: the tag [ftyp] at offset 4 decides, and the tag at offset
    8 counts when offset 4 does not hold it; the brand that follows the
    deciding tag gives [mov] when it is [qt  ] and [mp4] otherwise; content
    shorter than 12 bytes is refused. *)
Theorem validate_video_file_ftyp
  (content brand : list byte) (offset : nat)
  (Hoff : offset = 4%nat \/ offset = 8%nat)
  (Hbox : ftyp_box_at content offset brand)
  (Hfirst : offset = 8%nat -> slice content 4 8 <> bytes_of "ftyp") :
  _validate_video_file content = (true, Some (ext_of_brand brand))
  /\ forall short, (List.length short < 12)%nat ->
                   _validate_video_file short = (false, None).
Proof.
  split; [|apply validate_short].
  pose proof (ftyp_box_length _ _ _ Hbox) as Hlen.
  destruct Hbox as [Htag [Hbrand _]].
  pose proof (header_length content) as Hh.
  destruct Hoff as [-> | ->]; simpl in Htag, Hbrand, Hlen.
  - apply validate_ftyp_scan; [lia|].
    rewrite ftyp_scan_hit.
    + simpl. rewrite slice_header by lia. now rewrite Hbrand.
    + simpl. lia.
    + simpl. rewrite slice_header by lia. exact Htag.
  - apply validate_ftyp_scan; [lia|].
    rewrite ftyp_scan_miss.
    + rewrite ftyp_scan_hit.
      * simpl. rewrite slice_header by lia. now rewrite Hbrand.
      * simpl. lia.
      * simpl. rewrite slice_header by lia. exact Htag.
    + simpl. rewrite slice_header by lia. now apply Hfirst.
Qed.

Lemma validate_ext (content : list byte) (e : option string) :
  _validate_video_file content = (true, e) -> exists ext, e = Some ext.
Proof.
  unfold _validate_video_file.
  repeat match goal with
         | |- context [if ?b then _ else _] => destruct b
         | |- context [match ?o with Some _ => _ | None => _ end] => destruct o
         end; intros H; inversion H; eauto.
Qed.

Lemma upload_inv (s s' : Store) (pk : Z) (file : option UploadedFile)
      (name : option string) (new_id : Z) (url : string) :
  video_upload s pk file name = (s', JsonVideo new_id url) ->
  exists event ext,
    find_event s pk = Some event
    /\ _validate_video_file (read file) = (true, Some ext)
    /\ new_id = video_seq s
    /\ videos s' = videos s
                   ++ [mkVideo (video_seq s) (event_id event) (strip (get name EmptyString))
                               (relative_path (event_date event) (read file) ext)
                               (Some (Z.of_nat (List.length (read file))))]
    /\ events s' = events s
    /\ video_seq s' = video_seq s + 1
    /\ disk s' = write_file (disk s)
                            (relative_path (event_date event) (read file) ext) (read file).
Proof.
  unfold video_upload. destruct (find_event s pk) as [event|]; [|discriminate].
  destruct (negb (truthy_file file)); [discriminate|].
  destruct (String.eqb _ _); [discriminate|].
  destruct (_validate_video_file (read file)) as [valid e] eqn:V.
  destruct valid; simpl; [|discriminate].
  destruct (validate_ext _ _ V) as [ext ->]. simpl.
  intros H. injection H as <- <- _. exists event, ext. simpl. auto 10.
Qed.

Lemma read_write_file (d : Disk) (path : string) (content : list byte) :
  read_file (write_file d path content) path = Some content.
Proof.
  unfold read_file, write_file. simpl. now rewrite String.eqb_refl.
Qed.

(** C8, as amended: two uploads in a row of the same bytes, to events of the
    same date, are stored at the same path (the date directory, the SHA-256 of
    the bytes, the detected extension), where the bytes are; each adds a video
    row of its own, with its own id and its own display filename. *)
Theorem video_upload_same_content
  (s s1 s2 : Store) (pk1 pk2 : Z) (event1 event2 : Event) (file1 file2 : UploadedFile)
  (name1 name2 : option string) (id1 id2 : Z) (url1 url2 : string)
  (He1 : find_event s pk1 = Some event1)
  (He2 : find_event s pk2 = Some event2)
  (Hdate : event_date event1 = event_date event2)
  (Hsame : upload_content file1 = upload_content file2)
  (H1 : video_upload s pk1 (Some file1) name1 = (s1, JsonVideo id1 url1))
  (H2 : video_upload s1 pk2 (Some file2) name2 = (s2, JsonVideo id2 url2)) :
  exists v1 v2 ext,
    videos s2 = videos s ++ [v1; v2]
    /\ video_id v1 = id1 /\ video_id v2 = id2 /\ id1 <> id2
    /\ file_path v1 = file_path v2
    /\ file_path v1 = relative_path (event_date event1) (upload_content file1) ext
    /\ filename v1 = strip (get name1 EmptyString)
    /\ filename v2 = strip (get name2 EmptyString)
    /\ read_file (disk s2) (file_path v1) = Some (upload_content file1).
Proof.
  apply upload_inv in H1. apply upload_inv in H2.
  destruct H1 as [e1 [x1 [F1 [V1 [-> [Hv1 [Hev1 [Hq1 Hd1]]]]]]]].
  destruct H2 as [e2 [x2 [F2 [V2 [-> [Hv2 [Hev2 [Hq2 Hd2]]]]]]]].
  unfold find_event in F2. rewrite Hev1 in F2. fold (find_event s pk2) in F2.
  simpl in V1, V2, Hv1, Hv2, Hd1, Hd2.
  assert (e1 = event1) by congruence. assert (e2 = event2) by congruence. subst e1 e2.
  rewrite <- Hsame, V1 in V2. injection V2 as <-.
  rewrite <- Hsame, <- Hdate in Hv2, Hd2.
  eexists; eexists; exists x1. split.
  - rewrite Hv2, Hv1, <- app_assoc. reflexivity.
  - simpl. repeat split; try reflexivity; [lia|].
    rewrite Hd2. apply read_write_file.
Qed.

(* ------------------------------------------------------------------ *)
(** ** The properties on concrete requests *)



Lemma save_marks_unknown_action_rejected_witness :
  analysis_save_marks example_store 3 (JsonObject (Some unknown_action_marks))
  = (example_store, JsonError "Invalid action ID" 400).
Proof.
  apply (save_marks_unknown_action_rejected
           example_store 3 (mkAnalysis 3 1 1 "Red" "Q1") unknown_action_marks
           (mkMarkData 99 (2 # 1) None None None)).
  - reflexivity.
  - simpl. auto.
  - intros a [<-|[]]. simpl. discriminate.
Defined.

Lemma Mark_points_spec_witness :
  Mark_points example_store (mkMark 10 3 7 0 0 false 3) = Some 30
  /\ Mark_points example_store (mkMark 11 3 7 0 0 true 3) = Some 0.
Proof.
  split.
  - apply (proj1 (proj2 (Mark_points_spec example_store (mkMark 10 3 7 0 0 false 3)))
                 (mkAction 7 "SHOT" "Shot" 10 0)); reflexivity.
  - apply (proj1 (Mark_points_spec example_store (mkMark 11 3 7 0 0 true 3))).
    reflexivity.
Defined.

Lemma save_marks_empty_list_witness :
  exists s',
    analysis_save_marks example_store 3 (JsonObject (Some [])) = (s', JsonMarks [])
    /\ analysis_marks s' (mkAnalysis 3 1 1 "Red" "Q1") = []
    /\ marks s' = filter (fun m => negb (mark_analysis_id m =? 3)) (marks example_store)
    /\ mark_seq s' = mark_seq example_store.
Proof.
  exact (save_marks_empty_list example_store 3 (mkAnalysis 3 1 1 "Red" "Q1") eq_refl).
Defined.

Lemma save_marks_missing_key_witness :
  analysis_save_marks example_store 3 (JsonObject None)
  = analysis_save_marks example_store 3 (JsonObject (Some []))
  /\ exists s',
      analysis_save_marks example_store 3 (JsonObject None) = (s', JsonMarks [])
      /\ analysis_marks s' (mkAnalysis 3 1 1 "Red" "Q1") = []
      /\ marks s' = filter (fun m => negb (mark_analysis_id m =? 3)) (marks example_store)
      /\ mark_seq s' = mark_seq example_store.
Proof.
  exact (save_marks_missing_key example_store 3 (mkAnalysis 3 1 1 "Red" "Q1") eq_refl).
Defined.

(** A body that is valid JSON and has no [marks] key because it is an array:
    the view raises, the empty list is accepted. *)
Lemma save_marks_json_array :
  json_without_marks JsonNotObject
  /\ analysis_save_marks example_store 3 JsonNotObject = (example_store, ServerError)
  /\ analysis_save_marks example_store 3 JsonNotObject
     <> analysis_save_marks example_store 3 (JsonObject (Some [])).
Proof.
  split; [now left|]. split; [reflexivity|].
  intros H. apply (f_equal snd) in H. vm_compute in H. discriminate H.
Qed.

Lemma save_marks_twice_witness :
  let s1 := fst (analysis_save_marks example_store 3 (JsonObject (Some spec_example_marks))) in
  exists s2 saved2 analysis,
    find_analysis example_store 3 = Some analysis
    /\ analysis_save_marks s1 3 (JsonObject (Some spec_example_marks)) = (s2, JsonMarks saved2)
    /\ map sm_delta_seconds saved2 = map sm_delta_seconds spec_example_saved
    /\ total_points s2 analysis = total_points s1 analysis.
Proof.
  apply (save_marks_twice
           example_store
           (fst (analysis_save_marks example_store 3 (JsonObject (Some spec_example_marks))))
           3 (Some spec_example_marks) spec_example_saved).
  vm_compute. reflexivity.
Defined.


Lemma save_marks_frame_witness :
  filter (fun m => mark_analysis_id m =? 4)
         (marks (fst (analysis_save_marks example_store 3 (JsonObject (Some spec_example_marks)))))
  = filter (fun m => mark_analysis_id m =? 4) (marks example_store).
Proof.
  destruct (save_marks_frame example_store 3 (JsonObject (Some spec_example_marks)))
    as (_ & _ & _ & _ & _ & H).
  apply H. discriminate.
Defined.

(** Bytes 4 to 8 and bytes 8 to 12 both hold [ftyp]: the box at offset 8 has
    the brand [qt  ], and the answer is [mp4], from the brand [ftyp] of the
    box at offset 4. *)
Lemma validate_video_file_two_tags :
  ftyp_box_at two_tags 8 (bytes_of "qt  ")
  /\ _validate_video_file two_tags = (true, Some "mp4"%string)
  /\ _validate_video_file two_tags <> (true, Some (ext_of_brand (bytes_of "qt  "))).
Proof.
  split; [|split].
  - repeat split.
  - reflexivity.
  - discriminate.
Qed.

Lemma validate_video_file_ftyp_witness :
  _validate_video_file quicktime_bytes = (true, Some "mov"%string)
  /\ _validate_video_file isom_at_8_bytes = (true, Some "mp4"%string)
  /\ _validate_video_file (bytes_of "0000ftypqt ") = (false, None).
Proof.
  split; [|split].
  - apply (validate_video_file_ftyp quicktime_bytes (bytes_of "qt  ") 4).
    + now left.
    + repeat split.
    + discriminate.
  - apply (validate_video_file_ftyp isom_at_8_bytes (bytes_of "isom") 8).
    + now right.
    + repeat split.
    + intros _. discriminate.
  - apply (validate_video_file_ftyp quicktime_bytes (bytes_of "qt  ") 4).
    + now left.
    + repeat split.
    + discriminate.
    + simpl. lia.
Defined.

(** The same bytes, uploaded to an event of 1 January and to one of
    2 January, are stored at two paths. *)
Lemma video_upload_two_dates :
  exists s1 s2 id1 id2 url1 url2 v1 v2,
    video_upload example_store 1 (Some quicktime_file) (Some "first"%string)
    = (s1, JsonVideo id1 url1)
    /\ video_upload s1 2 (Some quicktime_file) (Some "second"%string)
       = (s2, JsonVideo id2 url2)
    /\ videos s2 = [v1; v2]
    /\ file_path v1 <> file_path v2.
Proof.
  do 8 eexists. split; [vm_compute; reflexivity|].
  split; [vm_compute; reflexivity|].
  split; [reflexivity|]. simpl. discriminate.
Qed.

Lemma video_upload_same_content_witness :
  let r1 := video_upload example_store 1 (Some quicktime_file) (Some " first "%string) in
  let r2 := video_upload (fst r1) 1 (Some quicktime_file) (Some "second"%string) in
  exists v1 v2 ext,
    videos (fst r2) = videos example_store ++ [v1; v2]
    /\ video_id v1 = 1 /\ video_id v2 = 2 /\ 1 <> 2
    /\ file_path v1 = file_path v2
    /\ file_path v1 = relative_path (mkDate 2026 1 1) quicktime_bytes ext
    /\ filename v1 = "first"%string
    /\ filename v2 = "second"%string
    /\ read_file (disk (fst r2)) (file_path v1) = Some quicktime_bytes.
Proof.
  intros r1 r2.
  apply (video_upload_same_content
           example_store (fst r1) (fst r2) 1 1 (mkEvent 1 "Regional" (mkDate 2026 1 1))
           (mkEvent 1 "Regional" (mkDate 2026 1 1)) quicktime_file quicktime_file
           (Some " first "%string) (Some "second"%string) 1 2 "/events/1" "/events/1");
    try reflexivity; vm_compute; reflexivity.
Defined.

(* ------------------------------------------------------------------ *)
(** ** The library functions on known values *)

Example sha256_abc :
  Sha256.hexdigest (bytes_of "abc")
  = "ba7816bf8f01cfea414140de5dae2223b00361a396177a9cb410ff61f20015ad"%string.
Proof. vm_compute. reflexivity. Qed.

Example sha256_empty :
  Sha256.hexdigest []
  = "e3b0c44298fc1c149afbf4c8996fb92427ae41e4649b934ca495991b7852b855"%string.
Proof. vm_compute. reflexivity. Qed.

Example sha256_two_blocks :
  Sha256.hexdigest (bytes_of "abcdbcdecdefdefgefghfghighijhijkijkljklmklmnlmnomnopnopq")
  = "248d6a61d20638b8e5c026930c3e6039a33ce45964ff2167f6ecedd419db06c1"%string.
Proof. vm_compute. reflexivity. Qed.

Example to_decimal4_values :
  map to_decimal4 [25 # 2; 1 # 64; 5 # 128; 3 # 128; 5 # 100000; 15 # 100000; - (1 # 64)]%Q
  = [125000; 156; 391; 234; 0; 2; -156].
Proof. reflexivity. Qed.

Example strftime_pads : strftime_Ymd (mkDate 2026 3 7) = "2026/03/07"%string.
Proof. reflexivity. Qed.

Example strip_both_ends : strip "  clip one  " = "clip one"%string.
Proof. reflexivity. Qed.

Example sorted_is_stable :
  sorted (fun a b : nat * nat => Nat.leb (fst a) (fst b))
         [(5, 0); (2, 1); (5, 2); (2, 3)]%nat
  = [(2, 1); (2, 3); (5, 0); (5, 2)]%nat.
Proof. reflexivity. Qed.

Example spec_example_response :
  snd (analysis_save_marks example_store 3 (JsonObject (Some spec_example_marks)))
  = JsonMarks spec_example_saved.
Proof. vm_compute. reflexivity. Qed.

(* ------------------------------------------------------------------ *)
(** ** More on [_validate_video_file] *)

(** The function on content of 12 bytes or more, read off the content
    itself instead of the header. *)
Lemma validate_unfold (content : list byte) :
  (12 <= List.length content)%nat ->
  _validate_video_file content =
  if bytes_eqb (slice content 4 8) (bytes_of "ftyp")
  then (true, Some (ext_of_brand (slice content 8 12)))
  else if (Nat.ltb 12 (List.length content)
           && bytes_eqb (slice content 8 12) (bytes_of "ftyp"))%bool
  then (true, Some (ext_of_brand (slice content 12 16)))
  else if bytes_eqb (slice content 0 4) EBML_magic
  then (true, Some "webm"%string)
  else if (bytes_eqb (slice content 0 4) (bytes_of "RIFF")
           && bytes_eqb (slice content 8 12) (bytes_of "AVI "))%bool
  then (true, Some "avi"%string)
  else if (bytes_eqb (slice content 0 4) MPEG_pack
           || bytes_eqb (slice content 0 4) MPEG_sequence)%bool
  then (true, Some "mpg"%string)
  else (false, None).
Proof.
  intros Hl. unfold _validate_video_file.
  pose proof (header_length content) as Hh.
  assert (L : Nat.ltb (List.length content) 12 = false) by (apply Nat.ltb_ge; lia).
  rewrite L. cbn [ftyp_scan].
  replace (Nat.ltb (4 + 4) (List.length (slice content 0 32))) with true
    by (symmetry; apply Nat.ltb_lt; lia).
  replace (Nat.ltb (8 + 4) (List.length (slice content 0 32)))
    with (Nat.ltb 12 (List.length content)).
  2:{ destruct (Nat.ltb_spec 12 (List.length content));
      symmetry; [apply Nat.ltb_lt | apply Nat.ltb_ge]; simpl; lia. }
  cbn [Nat.add andb].
  rewrite !slice_header by lia.
  unfold ext_of_brand, EBML_magic, MPEG_pack, MPEG_sequence.
  repeat match goal with
         | |- context [if ?b then _ else _] => destruct b
         end; reflexivity.
Qed.

Ltac bytes_cases :=
  repeat match goal with
         | |- context [bytes_eqb ?a ?b] =>
             let E := fresh "E" in
             destruct (bytes_eqb a b) eqn:E;
             [apply bytes_eqb_eq in E | apply bytes_eqb_neq in E]
         | |- context [Nat.ltb ?a ?b] =>
             let E := fresh "E" in
             destruct (Nat.ltb a b) eqn:E;
             [apply Nat.ltb_lt in E | apply Nat.ltb_ge in E]
         end; cbn [andb orb fst snd].

(** X1: content is accepted exactly when it has 12 bytes or more and one of
    the signatures: [ftyp] at offset 4, [ftyp] at offset 8 in content of 13
    bytes or more, the EBML magic, [RIFF] with [AVI ] at offset 8, or one of
    the two MPEG start codes. *)
Theorem validate_accepts_iff (content : list byte) :
  fst (_validate_video_file content) = true
  <-> (12 <= List.length content)%nat /\ known_signature content.
Proof.
  destruct (Nat.lt_ge_cases (List.length content) 12) as [Hs|Hl].
  - rewrite (validate_short _ Hs). simpl. split; [discriminate | lia].
  - rewrite (validate_unfold _ Hl). unfold known_signature. bytes_cases.
    all: split; [intros H; first [discriminate H | split; [exact Hl|]] | try (intros _; reflexivity)].
    all: try tauto.
    all: try (intros [_ H]; exfalso;
              repeat match goal with
                     | H : _ \/ _ |- _ => destruct H
                     | H : _ /\ _ |- _ => destruct H
                     end; try contradiction; try lia; congruence).
    all: try (right; left; split; [lia | assumption]).
Qed.

(** X2: an accepted content gets one of the five extensions [mov], [mp4],
    [webm], [avi], [mpg], each of which is in [ALLOWED_EXTENSIONS]; a refused
    one gets none.  The extensions [m4v], [mkv] and [mpeg] are never
    detected. *)
Theorem validate_extension_allowed (content : list byte) :
  match _validate_video_file content with
  | (true, e) => exists ext, e = Some ext
                             /\ In ext ["mov"; "mp4"; "webm"; "avi"; "mpg"]%string
                             /\ In ext ALLOWED_EXTENSIONS
  | (false, e) => e = None
  end.
Proof.
  destruct (Nat.lt_ge_cases (List.length content) 12) as [Hs|Hl].
  - now rewrite (validate_short _ Hs).
  - rewrite (validate_unfold _ Hl). unfold ext_of_brand.
    repeat match goal with
           | |- context [if ?b then _ else _] => destruct b
           end; try reflexivity;
      eexists; (split; [reflexivity|]); simpl; tauto.
Qed.

(** X3: the answer is decided by the first 32 bytes: two contents that agree
    on them get the same answer. *)
Theorem validate_header_only (c1 c2 : list byte)
  (Hsame : firstn 32 c1 = firstn 32 c2) :
  _validate_video_file c1 = _validate_video_file c2.
Proof.
  assert (Hlen : Nat.min 32 (List.length c1) = Nat.min 32 (List.length c2))
    by (rewrite <- !length_firstn; now rewrite Hsame).
  unfold _validate_video_file, slice. cbn [skipn Nat.sub].
  rewrite Hsame.
  destruct (Nat.ltb_spec (List.length c1) 12), (Nat.ltb_spec (List.length c2) 12);
    try reflexivity; lia.
Qed.

(** X4: without an [ftyp] tag where the loop looks, content of 12 bytes or
    more that starts with the EBML magic is [webm], with [RIFF] and has
    [AVI ] at offset 8 is [avi], with an MPEG start code is [mpg]; a RIFF
    file that is not AVI is refused. *)
Theorem validate_other_containers (content : list byte)
  (Hlen : (12 <= List.length content)%nat)
  (Hno : no_ftyp_tag content) :
  (slice content 0 4 = EBML_magic ->
   _validate_video_file content = (true, Some "webm"%string))
  /\ (slice content 0 4 = bytes_of "RIFF" -> slice content 8 12 = bytes_of "AVI " ->
      _validate_video_file content = (true, Some "avi"%string))
  /\ (slice content 0 4 = MPEG_pack \/ slice content 0 4 = MPEG_sequence ->
      _validate_video_file content = (true, Some "mpg"%string))
  /\ (slice content 0 4 = bytes_of "RIFF" -> slice content 8 12 <> bytes_of "AVI " ->
      _validate_video_file content = (false, None)).
Proof.
  destruct Hno as [H4 H8]. rewrite (validate_unfold _ Hlen).
  apply bytes_eqb_neq in H4. rewrite H4.
  assert (E8 : (Nat.ltb 12 (List.length content)
                && bytes_eqb (slice content 8 12) (bytes_of "ftyp"))%bool = false).
  { destruct H8 as [H8|H8].
    - apply Nat.ltb_ge in H8. now rewrite H8.
    - apply bytes_eqb_neq in H8. now rewrite H8, andb_false_r. }
  rewrite E8. repeat split.
  - intros ->. reflexivity.
  - intros -> ->. reflexivity.
  - intros [-> | ->]; reflexivity.
  - intros -> Hn. apply bytes_eqb_neq in Hn. rewrite Hn. reflexivity.
Qed.

Lemma validate_accepts_iff_witness :
  (12 <= List.length quicktime_bytes)%nat /\ known_signature quicktime_bytes.
Proof.
  apply (proj1 (validate_accepts_iff quicktime_bytes)). reflexivity.
Defined.

Lemma validate_header_only_witness :
  _validate_video_file (quicktime_bytes ++ bytes_of "0123456789abcdef-tail one")
  = _validate_video_file (quicktime_bytes ++ bytes_of "0123456789abcdef-another tail").
Proof.
  apply validate_header_only. reflexivity.
Defined.

Lemma validate_other_containers_witness :
  _validate_video_file (bytes_of "RIFF0000AVI LIST") = (true, Some "avi"%string)
  /\ _validate_video_file (bytes_of "RIFF0000WAVEfmt ") = (false, None).
Proof.
  split.
  - apply (validate_other_containers (bytes_of "RIFF0000AVI LIST")).
    + simpl. lia.
    + split; [discriminate | right; discriminate].
    + reflexivity.
    + reflexivity.
  - apply (validate_other_containers (bytes_of "RIFF0000WAVEfmt ")).
    + simpl. lia.
    + split; [discriminate | right; discriminate].
    + reflexivity.
    + discriminate.
Defined.

(* ------------------------------------------------------------------ *)
(** ** More on [video_upload] *)

Lemma find_event_id (s : Store) (pk : Z) (event : Event) :
  find_event s pk = Some event -> event_id event = pk.
Proof.
  unfold find_event. intros H. apply find_some in H. now apply Z.eqb_eq.
Qed.

Lemma upload_accept (s : Store) (pk : Z) (event : Event) (file : option UploadedFile)
      (name : option string) (ext : string) :
  find_event s pk = Some event ->
  truthy_file file = true ->
  strip (get name EmptyString) <> EmptyString ->
  _validate_video_file (read file) = (true, Some ext) ->
  video_upload s pk file name
  = (uploaded_store s event (strip (get name EmptyString)) (read file) ext,
     JsonVideo (video_seq s) ("/events/" ++ str pk)).
Proof.
  intros F T N V. unfold video_upload. rewrite F, T. simpl negb. cbv iota.
  apply String.eqb_neq in N. rewrite N, V. reflexivity.
Qed.

Lemma upload_cases (s : Store) (pk : Z) (file : option UploadedFile) (name : option string) :
  (exists event ext,
      find_event s pk = Some event /\ truthy_file file = true
      /\ strip (get name EmptyString) <> EmptyString
      /\ _validate_video_file (read file) = (true, Some ext)
      /\ video_upload s pk file name
         = (uploaded_store s event (strip (get name EmptyString)) (read file) ext,
            JsonVideo (video_seq s) ("/events/" ++ str pk)))
  \/ (exists r, video_upload s pk file name = (s, r)
                /\ (r = Http404 \/ exists msg, r = JsonError msg 400)
                /\ (find_event s pk = None \/ truthy_file file = false
                    \/ strip (get name EmptyString) = EmptyString
                    \/ fst (_validate_video_file (read file)) = false)).
Proof.
  destruct (find_event s pk) as [event|] eqn:F.
  2:{ right. exists Http404. unfold video_upload. rewrite F. auto. }
  destruct (truthy_file file) eqn:T.
  2:{ right. eexists. unfold video_upload. rewrite F, T. simpl. eauto 10. }
  destruct (String.eqb (strip (get name EmptyString)) EmptyString) eqn:N.
  { right. eexists. unfold video_upload. rewrite F, T, N. simpl.
    apply String.eqb_eq in N. eauto 10. }
  destruct (_validate_video_file (read file)) as [valid e] eqn:V.
  destruct valid.
  - destruct (validate_ext _ _ V) as [ext ->].
    apply String.eqb_neq in N.
    left. exists event, ext. repeat split; auto. now apply upload_accept.
  - right. eexists. unfold video_upload. rewrite F, T, N, V. simpl. eauto 10.
Qed.

(** X5: an upload that is not accepted writes nothing: whenever the answer is
    not the success response, it is the 404 or a 400 response and the store,
    files included, is the one before. *)
Theorem video_upload_refused_unchanged
  (s s' : Store) (pk : Z) (file : option UploadedFile) (name : option string) (r : Response)
  (Hup : video_upload s pk file name = (s', r))
  (Hno : forall new_id url, r <> JsonVideo new_id url) :
  s' = s /\ (r = Http404 \/ exists msg, r = JsonError msg 400).
Proof.
  destruct (upload_cases s pk file name) as [(event & ext & _ & _ & _ & _ & E) | (r' & E & Hr & _)];
    rewrite E in Hup; injection Hup as <- <-.
  - exfalso. eapply Hno. reflexivity.
  - auto.
Qed.

(** X6: an upload is accepted exactly when the event exists, a named file
    part is there, the display name is not blank after stripping, and the
    content passes the signature check. *)
Theorem video_upload_accepted_iff
  (s : Store) (pk : Z) (file : option UploadedFile) (name : option string) :
  (exists s' new_id url, video_upload s pk file name = (s', JsonVideo new_id url))
  <-> (exists event, find_event s pk = Some event)
      /\ truthy_file file = true
      /\ strip (get name EmptyString) <> EmptyString
      /\ fst (_validate_video_file (read file)) = true.
Proof.
  split.
  - intros (s' & new_id & url & H).
    destruct (upload_cases s pk file name) as [(event & ext & F & T & N & V & E) | (r' & E & Hr & _)].
    + rewrite V. simpl. eauto.
    + rewrite E in H. injection H as _ ->.
      destruct Hr as [Hr | [msg Hr]]; discriminate Hr.
  - intros ([event F] & T & N & V).
    destruct (_validate_video_file (read file)) as [valid e] eqn:Ve. simpl in V. subst valid.
    destruct (validate_ext _ _ Ve) as [ext ->].
    do 3 eexists. now apply (upload_accept s pk event file name ext).
Qed.

Lemma read_write_other (d : Disk) (path other : string) (content : list byte) :
  other <> path -> read_file (write_file d path content) other = read_file d other.
Proof.
  intros N. unfold read_file, write_file. simpl.
  assert (E : String.eqb path other = false) by (apply String.eqb_neq; congruence).
  rewrite E. f_equal. induction d as [|[p c] r IH]; simpl; [reflexivity|].
  destruct (String.eqb p path) eqn:Ep; simpl.
  - apply String.eqb_eq in Ep. subst p. now rewrite E.
  - destruct (String.eqb p other); [reflexivity | exact IH].
Qed.

(** X7: an accepted upload appends one video row, with the next id of the
    sequence, the event of the request, the stripped display name and the
    number of bytes of the content; it writes the content at the row's path
    and leaves every other file, and the event, action, analysis and mark
    tables, as they were; the answer names the new id and the event's page. *)
Theorem video_upload_effect
  (s s' : Store) (pk : Z) (file : option UploadedFile) (name : option string)
  (new_id : Z) (url : string)
  (Hup : video_upload s pk file name = (s', JsonVideo new_id url)) :
  exists v,
    videos s' = videos s ++ [v]
    /\ video_id v = video_seq s /\ new_id = video_seq s
    /\ video_seq s' = video_seq s + 1
    /\ video_event_id v = pk
    /\ filename v = strip (get name EmptyString)
    /\ file_size_bytes v = Some (Z.of_nat (List.length (read file)))
    /\ url = ("/events/" ++ str pk)%string
    /\ read_file (disk s') (file_path v) = Some (read file)
    /\ (forall other, other <> file_path v ->
                      read_file (disk s') other = read_file (disk s) other)
    /\ events s' = events s /\ actions s' = actions s
    /\ analyses s' = analyses s /\ marks s' = marks s /\ mark_seq s' = mark_seq s.
Proof.
  destruct (upload_cases s pk file name) as [(event & ext & F & T & N & V & E) | (r' & E & Hr & _)];
    rewrite E in Hup.
  - injection Hup as <- <- <-. eexists. split; [reflexivity|]. simpl.
    rewrite (find_event_id _ _ _ F). repeat split.
    + apply read_write_file.
    + intros other Ho. now apply read_write_other.
  - injection Hup as _ ->. destruct Hr as [Hr | [msg Hr]]; discriminate Hr.
Qed.

Lemma lstrip_spaces (s : string) :
  Forall (fun c => is_space c = true) (chars s) -> lstrip s = EmptyString.
Proof.
  induction s as [|c r IH]; simpl; intros H; [reflexivity|].
  inversion H as [|? ? Hc Hr]; subst. rewrite Hc. now apply IH.
Qed.

Lemma lstrip_head (s : string) (c : ascii) :
  head_char (lstrip s) = Some c -> is_space c = false.
Proof.
  induction s as [|d r IH]; simpl; [discriminate|].
  destruct (is_space d) eqn:E; [exact IH|].
  simpl. intros H. injection H as <-. exact E.
Qed.

Lemma rstrip_head (s : string) (c : ascii) :
  head_char (rstrip s) = Some c -> head_char s = Some c.
Proof.
  destruct s as [|d r]; simpl; [discriminate|].
  destruct (rstrip r); [destruct (is_space d); [discriminate|]|]; auto.
Qed.

Lemma rstrip_last (s : string) (c : ascii) :
  last_char (rstrip s) = Some c -> is_space c = false.
Proof.
  induction s as [|d r IH]; simpl; [discriminate|].
  destruct (rstrip r) as [|e r'] eqn:R.
  - destruct (is_space d) eqn:E; simpl; [discriminate|].
    intros H. injection H as <-. exact E.
  - exact IH.
Qed.

Lemma strip_trimmed (s : string) : strip s <> EmptyString -> trimmed (strip s).
Proof.
  intros N. split; [exact N|]. unfold strip in *. split.
  - intros c H. apply rstrip_head in H. now apply lstrip_head in H.
  - apply rstrip_last.
Qed.

(** X8: a display name that is missing, empty or made of white space only is
    refused with [No filename provided], and nothing is written; the check
    comes after the one for the file part. *)
Theorem video_upload_blank_name
  (s : Store) (pk : Z) (event : Event) (file : option UploadedFile) (name : option string)
  (Hev : find_event s pk = Some event)
  (Hfile : truthy_file file = true)
  (Hblank : Forall (fun c => is_space c = true) (chars (get name EmptyString))) :
  video_upload s pk file name = (s, JsonError "No filename provided" 400).
Proof.
  unfold video_upload. rewrite Hev, Hfile. simpl negb. cbv iota.
  unfold strip. rewrite (lstrip_spaces _ Hblank). reflexivity.
Qed.

(** X9: the display name an accepted upload stores is not empty and has no
    white space at its start or at its end. *)
Theorem video_upload_name_trimmed
  (s s' : Store) (pk : Z) (file : option UploadedFile) (name : option string)
  (new_id : Z) (url : string)
  (Hup : video_upload s pk file name = (s', JsonVideo new_id url)) :
  exists v, videos s' = videos s ++ [v] /\ trimmed (filename v).
Proof.
  destruct (upload_cases s pk file name) as [(event & ext & F & T & N & V & E) | (r' & E & Hr & _)];
    rewrite E in Hup.
  - injection Hup as <- _ _. eexists. split; [reflexivity|].
    simpl. now apply strip_trimmed.
  - injection Hup as _ ->. destruct Hr as [Hr | [msg Hr]]; discriminate Hr.
Qed.












Lemma write_file_twice (d : Disk) (path : string) (content : list byte) :
  write_file (write_file d path content) path content = write_file d path content.
Proof.
  unfold write_file. simpl. rewrite String.eqb_refl. simpl. f_equal.
  induction d as [|[p c] r IH]; simpl; [reflexivity|].
  destruct (String.eqb p path) eqn:E; simpl; [exact IH|].
  rewrite E. simpl. now rewrite IH.
Qed.

(** X11: uploading again, right after, the bytes an event already got leaves
    every stored file as it is: the second upload writes the same bytes at the
    same path. *)
Theorem video_upload_again_same_files
  (s s1 s2 : Store) (pk : Z) (file1 file2 : option UploadedFile)
  (name1 name2 : option string) (id1 id2 : Z) (url1 url2 : string)
  (Hsame : read file1 = read file2)
  (H1 : video_upload s pk file1 name1 = (s1, JsonVideo id1 url1))
  (H2 : video_upload s1 pk file2 name2 = (s2, JsonVideo id2 url2)) :
  forall path, read_file (disk s2) path = read_file (disk s1) path.
Proof.
  destruct (upload_cases s pk file1 name1)
    as [(e1 & x1 & F1 & _ & _ & V1 & E1) | (r' & E & Hr & _)]; rewrite ?E1, ?E in H1.
  2:{ injection H1 as _ ->. destruct Hr as [Hr | [msg Hr]]; discriminate Hr. }
  injection H1 as <- _ _.
  destruct (upload_cases (uploaded_store s e1 (strip (get name1 EmptyString)) (read file1) x1)
                         pk file2 name2)
    as [(e2 & x2 & F2 & _ & _ & V2 & E2) | (r' & E & Hr & _)]; rewrite ?E2, ?E in H2.
  2:{ injection H2 as _ ->. destruct Hr as [Hr | [msg Hr]]; discriminate Hr. }
  injection H2 as <- _ _.
  change (find_event s pk = Some e2) in F2.
  assert (e2 = e1) by congruence. subst e2.
  rewrite <- Hsame, V1 in V2. injection V2 as <-.
  intros path. simpl. rewrite <- Hsame. now rewrite write_file_twice.
Qed.

(* ------------------------------------------------------------------ *)
(** ** More on [analysis_save_marks] *)


Lemma save_cases (s : Store) (pk : Z) (body : Body) :
  (exists analysis data,
      find_analysis s pk = Some analysis /\ body = JsonObject data
      /\ refused s (get data []) = false
      /\ analysis_save_marks s pk body
         = (saved_store s analysis data,
            JsonMarks (map (entry_of s)
                           (new_marks (mark_seq s) analysis (sorted_marks_of data)))))
  \/ (exists r, analysis_save_marks s pk body = (s, r)
                /\ (r = Http404 \/ r = ServerError \/ exists msg, r = JsonError msg 400)).
Proof.
  destruct (find_analysis s pk) as [analysis|] eqn:F.
  2:{ right. exists Http404. unfold analysis_save_marks. rewrite F. auto. }
  destruct body as [| |data].
  - right. eexists. unfold analysis_save_marks. rewrite F. eauto 6.
  - right. eexists. unfold analysis_save_marks. rewrite F. eauto 6.
  - rewrite (save_unfold _ _ _ _ F). destruct (refused s (get data [])) eqn:R.
    + right. eexists. eauto 6.
    + left. exists analysis, data. rewrite (marks_json_saved _ _ _ R). auto.
Qed.



Lemma set_deltas_length (prev : Q) (l : list MarkData) :
  List.length (set_deltas prev l) = List.length l.
Proof.
  revert prev. induction l as [|x r IH]; intros prev; simpl; [reflexivity|].
  now rewrite IH.
Qed.

Lemma sorted_marks_length (data : option (list MarkData)) :
  List.length (sorted_marks_of data) = List.length (get data []).
Proof.
  unfold sorted_marks_of. rewrite set_deltas_length.
  symmetry. apply Permutation_length, sorted_perm.
Qed.

Lemma new_marks_ids (next : Z) (analysis : Analysis) (l : list MarkData) :
  map mark_id (new_marks next analysis l) = consecutive next (List.length l).
Proof.
  revert next. induction l as [|x r IH]; intros next; simpl; [reflexivity|].
  now rewrite IH.
Qed.

Lemma consecutive_bounds (start : Z) (n : nat) (x : Z) :
  In x (consecutive start n) <-> start <= x < start + Z.of_nat n.
Proof.
  revert start. induction n as [|k IH]; intros start; simpl; [lia|].
  rewrite IH. lia.
Qed.

Lemma consecutive_NoDup (start : Z) (n : nat) : NoDup (consecutive start n).
Proof.
  revert start. induction n as [|k IH]; intros start; simpl; constructor; auto.
  rewrite consecutive_bounds. lia.
Qed.


Lemma Forall_filter {A : Type} (P : A -> Prop) (p : A -> bool) (l : list A) :
  Forall P l -> Forall P (filter p l).
Proof.
  rewrite !Forall_forall. intros H x Hx. apply filter_In in Hx. apply H. tauto.
Qed.

Lemma NoDup_map_filter {A : Type} (f : A -> Z) (p : A -> bool) (l : list A) :
  NoDup (map f l) -> NoDup (map f (filter p l)).
Proof.
  induction l as [|x r IH]; simpl; intros H; [constructor|].
  inversion H as [|? ? Hn Hr]; subst.
  destruct (p x); simpl; [constructor|]; auto.
  intros Hin. apply Hn. apply in_map_iff in Hin. destruct Hin as [y [E Hy]].
  apply filter_In in Hy. rewrite <- E. apply in_map. tauto.
Qed.

Lemma NoDup_app_disjoint {A : Type} (l1 l2 : list A) :
  NoDup l1 -> NoDup l2 -> (forall x, In x l1 -> ~ In x l2) -> NoDup (l1 ++ l2).
Proof.
  induction l1 as [|x r IH]; simpl; intros H1 H2 Hd; [exact H2|].
  inversion H1 as [|? ? Hn Hr]; subst. constructor.
  - rewrite in_app_iff. intros [H|H]; [contradiction | exact (Hd x (or_introl eq_refl) H)].
  - apply IH; auto.
Qed.

(** X15: a save, whatever its outcome, keeps the keys in order: every mark and
    video id in use stays below its sequence and no id is used twice. *)
Theorem save_marks_keeps_keys
  (s : Store) (pk : Z) (body : Body) (Hkeys : keys_ok s) :
  keys_ok (fst (analysis_save_marks s pk body)).
Proof.
  destruct (save_cases s pk body) as [(an & data & F & E & R & Es) | (r' & Es & Hr)];
    rewrite Es; simpl; [|exact Hkeys].
  destruct Hkeys as (Hm & Hnd & Hv & Hvd).
  set (old := filter (fun m => negb (mark_analysis_id m =? analysis_id an)) (marks s)).
  set (new := new_marks (mark_seq s) an (sorted_marks_of data)).
  assert (Hnew : forall x, In x (map mark_id new) ->
                           mark_seq s <= x < mark_seq s + Z.of_nat (List.length (sorted_marks_of data))).
  { intros x Hx. unfold new in Hx. rewrite new_marks_ids in Hx.
    now apply consecutive_bounds in Hx. }
  unfold keys_ok. simpl. fold old new. repeat split; auto.
  - apply Forall_app. split.
    + apply Forall_filter. eapply Forall_impl; [|exact Hm]. simpl. intros; lia.
    + apply Forall_forall. intros m Hin. apply (in_map mark_id) in Hin.
      apply Hnew in Hin. lia.
  - rewrite map_app. apply NoDup_app_disjoint.
    + now apply NoDup_map_filter.
    + unfold new. rewrite new_marks_ids. apply consecutive_NoDup.
    + intros x Hx Hx'. apply Hnew in Hx'.
      apply in_map_iff in Hx. destruct Hx as [m [<- Hin]].
      apply filter_In in Hin. destruct Hin as [Hin _].
      rewrite Forall_forall in Hm. specialize (Hm m Hin). lia.
Qed.

(** X16: a save, whatever its outcome, keeps the references whole: when every
    mark names an existing action and an existing analysis before, so does
    every mark after. *)
Theorem save_marks_keeps_references
  (s : Store) (pk : Z) (body : Body) (Hrefs : refs_ok s) :
  refs_ok (fst (analysis_save_marks s pk body)).
Proof.
  destruct (save_cases s pk body) as [(an & data & F & E & R & Es) | (r' & Es & Hr)];
    rewrite Es; simpl; [|exact Hrefs].
  destruct Hrefs as (Hm & Hv). split; [|exact Hv].
  change (marks (saved_store s an data))
    with (filter (fun m => negb (mark_analysis_id m =? analysis_id an)) (marks s)
          ++ new_marks (mark_seq s) an (sorted_marks_of data)).
  apply Forall_app. split.
  - apply Forall_filter. exact Hm.
  - apply Forall_forall. intros m Hin.
    change (find_action (saved_store s an data)) with (find_action s).
    change (find_analysis (saved_store s an data)) with (find_analysis s). split.
    + apply find_action_In. apply (in_map mark_action_id) in Hin.
      rewrite new_marks_action_ids in Hin. unfold sorted_marks_of in Hin.
      rewrite set_deltas_action_ids in Hin. apply in_map_iff in Hin.
      destruct Hin as [md [<- Hmd]]. apply find_action_In.
      apply (refused_false _ _ R).
      eapply Permutation_in; [symmetry; apply sorted_perm | exact Hmd].
    + pose proof (new_marks_analysis (mark_seq s) an (sorted_marks_of data)) as Ha.
      rewrite Forall_forall in Ha. rewrite (Ha m Hin), (find_analysis_id _ _ _ F). eauto.
Qed.

(* ------------------------------------------------------------------ *)
(** ** The further properties on concrete requests *)

Lemma video_upload_refused_unchanged_witness :
  fst (video_upload example_store 1 (Some quicktime_file) (Some "   "%string)) = example_store.
Proof.
  apply (video_upload_refused_unchanged
           example_store _ 1 (Some quicktime_file) (Some "   "%string)
           (JsonError "No filename provided" 400)).
  - reflexivity.
  - discriminate.
Defined.

Lemma video_upload_accepted_iff_witness :
  exists s' new_id url,
    video_upload example_store 1 (Some quicktime_file) (Some "first"%string)
    = (s', JsonVideo new_id url).
Proof.
  apply (proj2 (video_upload_accepted_iff example_store 1 (Some quicktime_file)
                                          (Some "first"%string))).
  split; [eexists; reflexivity|]. repeat split. discriminate.
Defined.

Lemma video_upload_effect_witness :
  let s' := fst (video_upload example_store 1 (Some quicktime_file) (Some " first "%string)) in
  exists v,
    videos s' = videos example_store ++ [v]
    /\ video_id v = 1 /\ 1 = 1
    /\ video_seq s' = 1 + 1
    /\ video_event_id v = 1
    /\ filename v = "first"%string
    /\ file_size_bytes v = Some 16
    /\ "/events/1"%string = ("/events/" ++ str 1)%string
    /\ read_file (disk s') (file_path v) = Some quicktime_bytes
    /\ (forall other, other <> file_path v ->
                      read_file (disk s') other = read_file (disk example_store) other)
    /\ events s' = events example_store /\ actions s' = actions example_store
    /\ analyses s' = analyses example_store /\ marks s' = marks example_store
    /\ mark_seq s' = mark_seq example_store.
Proof.
  intros s'.
  apply (video_upload_effect example_store s' 1 (Some quicktime_file)
                             (Some " first "%string) 1 "/events/1").
  vm_compute. reflexivity.
Defined.

Lemma video_upload_blank_name_witness :
  video_upload example_store 1 (Some quicktime_file) (Some "   "%string)
  = (example_store, JsonError "No filename provided" 400)
  /\ video_upload example_store 1 (Some quicktime_file) None
     = (example_store, JsonError "No filename provided" 400).
Proof.
  split.
  - apply (video_upload_blank_name example_store 1 (mkEvent 1 "Regional" (mkDate 2026 1 1)));
      [reflexivity | reflexivity | repeat constructor].
  - apply (video_upload_blank_name example_store 1 (mkEvent 1 "Regional" (mkDate 2026 1 1)));
      [reflexivity | reflexivity | constructor].
Defined.

Lemma video_upload_name_trimmed_witness :
  let s' := fst (video_upload example_store 1 (Some quicktime_file) (Some " first "%string)) in
  exists v, videos s' = videos example_store ++ [v] /\ trimmed (filename v).
Proof.
  intros s'.
  apply (video_upload_name_trimmed example_store s' 1 (Some quicktime_file)
                                   (Some " first "%string) 1 "/events/1").
  vm_compute. reflexivity.
Defined.


Lemma video_upload_again_same_files_witness :
  let s1 := fst (video_upload example_store 1 (Some quicktime_file) (Some "first"%string)) in
  let s2 := fst (video_upload s1 1 (Some quicktime_file) (Some "second"%string)) in
  let path := relative_path (mkDate 2026 1 1) quicktime_bytes "mov" in
  read_file (disk s2) path = read_file (disk s1) path.
Proof.
  intros s1 s2 path.
  apply (video_upload_again_same_files
           example_store s1 s2 1 (Some quicktime_file) (Some quicktime_file)
           (Some "first"%string) (Some "second"%string) 1 2 "/events/1" "/events/1");
    [reflexivity | vm_compute; reflexivity | vm_compute; reflexivity].
Defined.




Lemma example_store_keys_ok : keys_ok example_store.
Proof.
  unfold keys_ok. simpl. repeat split; repeat constructor; simpl; intuition lia.
Qed.

Lemma example_store_refs_ok : refs_ok example_store.
Proof.
  unfold refs_ok. simpl. split; repeat constructor; eexists; reflexivity.
Qed.

Lemma save_marks_keeps_keys_witness :
  keys_ok (fst (analysis_save_marks example_store 3 (JsonObject (Some spec_example_marks)))).
Proof.
  apply save_marks_keeps_keys. exact example_store_keys_ok.
Defined.

Lemma save_marks_keeps_references_witness :
  refs_ok (fst (analysis_save_marks example_store 3 (JsonObject (Some spec_example_marks)))).
Proof.
  apply save_marks_keeps_references. exact example_store_refs_ok.
Defined.

(* ------------------------------------------------------------------ *)
(** ** Deltas, points and rows after a save *)




Lemma points_of_new_marks (s s' : Store) (analysis : Analysis) (l : list MarkData) :
  actions s' = actions s ->
  (forall md, In md l -> exists a, find_action s (md_action_id md) = Some a) ->
  forall prev next,
    map (Mark_points s') (new_marks next analysis (set_deltas prev l))
    = map (fun md => Some (submitted_points s md)) l.
Proof.
  intros Ea. induction l as [|x r IH]; intros H prev next; [reflexivity|].
  cbn [set_deltas new_marks map]. rewrite IH by (intros; apply H; now right). f_equal.
  destruct (H x (or_introl eq_refl)) as [a Ha].
  unfold Mark_points, submitted_points, new_mark, find_action in *. cbn.
  rewrite Ea, Ha. now destruct (get (md_is_failure x) false).
Qed.

Lemma fold_points (l : list Z) :
  fold_right (fun p acc => match p, acc with
                           | Some p, Some t => Some (p + t)
                           | _, _ => None
                           end)
             (Some 0) (map Some l)
  = Some (sum l).
Proof.
  induction l as [|x r IH]; simpl; [reflexivity|]. now rewrite IH.
Qed.

Lemma sum_perm (l1 l2 : list Z) : Permutation l1 l2 -> sum l1 = sum l2.
Proof.
  unfold sum. induction 1; simpl; lia.
Qed.

(** X18: after an accepted save the point total of the analysis is defined
    (every mark's action exists) and is the sum, over the submitted marks, of
    zero for a failure and the action's points times the count otherwise,
    with the count taken as 1 and the failure flag as false when omitted. *)
Theorem save_marks_total_points
  (s s' : Store) (pk : Z) (marks_data : list MarkData) (saved : list SavedMark)
  (Hok : analysis_save_marks s pk (JsonObject (Some marks_data)) = (s', JsonMarks saved)) :
  exists analysis,
    find_analysis s pk = Some analysis
    /\ total_points s' analysis = Some (sum (map (submitted_points s) marks_data)).
Proof.
  destruct (save_cases s pk (JsonObject (Some marks_data)))
    as [(an & data & F & E & R & Es) | (r' & Es & Hr)]; rewrite Es in Hok.
  2:{ injection Hok as _ ->. destruct Hr as [Hr | [Hr | [msg Hr]]]; discriminate Hr. }
  injection E as <-. injection Hok as <- _.
  exists an. split; [exact F|].
  rewrite total_points_map, analysis_marks_saved. unfold sorted_marks_of. cbn [get].
  pose proof (sorted_perm time_leb marks_data) as Hp.
  rewrite (points_of_new_marks s).
  - rewrite <- (map_map (submitted_points s) Some), fold_points. f_equal.
    apply sum_perm, Permutation_map. now symmetry.
  - reflexivity.
  - intros md Hmd. apply (refused_false _ _ R).
    eapply Permutation_in; [symmetry; exact Hp | exact Hmd].
Qed.


(** X20: an accepted save replaces the marks of the analysis: when the ids in
    use are below the sequence, no row the analysis had before is in the
    table after, and the analysis has as many rows as marks were submitted. *)
Theorem save_marks_replaces_rows
  (s s' : Store) (pk : Z) (marks_data : list MarkData) (saved : list SavedMark)
  (Hkeys : Forall (fun m => mark_id m < mark_seq s) (marks s))
  (Hok : analysis_save_marks s pk (JsonObject (Some marks_data)) = (s', JsonMarks saved)) :
  (forall m, In m (marks s) -> mark_analysis_id m = pk -> ~ In m (marks s'))
  /\ List.length (filter (fun m => mark_analysis_id m =? pk) (marks s'))
     = List.length marks_data.
Proof.
  destruct (save_cases s pk (JsonObject (Some marks_data)))
    as [(an & data & F & E & R & Es) | (r' & Es & Hr)]; rewrite Es in Hok.
  2:{ injection Hok as _ ->. destruct Hr as [Hr | [Hr | [msg Hr]]]; discriminate Hr. }
  injection E as <-. injection Hok as <- _.
  pose proof (find_analysis_id _ _ _ F) as Hid. split.
  - intros m Hm Han Hin.
    change (marks (saved_store s an (Some marks_data)))
      with (filter (fun m => negb (mark_analysis_id m =? analysis_id an)) (marks s)
            ++ new_marks (mark_seq s) an (sorted_marks_of (Some marks_data))) in Hin.
    apply in_app_iff in Hin. destruct Hin as [Hin|Hin].
    + apply filter_In in Hin. destruct Hin as [_ Hn].
      rewrite Hid, Han, Z.eqb_refl in Hn. discriminate.
    + apply (in_map mark_id) in Hin. rewrite new_marks_ids in Hin.
      apply consecutive_bounds in Hin.
      rewrite Forall_forall in Hkeys. specialize (Hkeys m Hm). lia.
  - rewrite <- Hid.
    change (filter _ (marks ?st)) with (analysis_marks st an).
    rewrite analysis_marks_saved, <- (length_map mark_id), new_marks_ids.
    rewrite sorted_marks_length. cbn [get].
    generalize (mark_seq s). induction (List.length marks_data) as [|k IH]; intros z; simpl; auto.
Qed.

(** X21: an upload, whatever its outcome, keeps the keys and the references
    in order: ids stay below their sequences and unique, and every mark and
    video still names rows that exist. *)
Theorem video_upload_keeps_invariants
  (s : Store) (pk : Z) (file : option UploadedFile) (name : option string)
  (Hkeys : keys_ok s) (Hrefs : refs_ok s) :
  keys_ok (fst (video_upload s pk file name))
  /\ refs_ok (fst (video_upload s pk file name)).
Proof.
  destruct (upload_cases s pk file name) as [(event & ext & F & T & N & V & E) | (r' & E & Hr & _)];
    rewrite E; cbn [fst]; [|auto].
  destruct Hkeys as (Hm & Hnd & Hv & Hvd). destruct Hrefs as (Hrm & Hrv).
  unfold keys_ok, refs_ok, uploaded_store. cbn [marks mark_seq videos video_seq].
  repeat split; auto.
  - apply Forall_app. split.
    + eapply Forall_impl; [|exact Hv]. simpl. intros; lia.
    + repeat constructor. simpl. lia.
  - rewrite map_app. apply NoDup_app_disjoint; [exact Hvd | repeat constructor; intros [] |].
    intros x Hx [<-|[]]. apply in_map_iff in Hx. destruct Hx as [v [E' Hin]].
    rewrite Forall_forall in Hv. specialize (Hv v Hin). simpl in E'. lia.
  - apply Forall_app. split; [exact Hrv|]. repeat constructor.
    exists event. cbn [video_event_id]. unfold find_event. cbn [events].
    fold (find_event s (event_id event)). now rewrite (find_event_id _ _ _ F).
Qed.

(* ------------------------------------------------------------------ *)
(** ** The pages: [analysis_detail] and [event_detail] *)

Lemma other_marks_saved (s : Store) (analysis : Analysis) (data : option (list MarkData))
      (other : Z) :
  other <> analysis_id analysis ->
  filter (fun m => mark_analysis_id m =? other) (marks (saved_store s analysis data))
  = filter (fun m => mark_analysis_id m =? other) (marks s).
Proof.
  intros Ho.
  change (marks (saved_store s analysis data))
    with (filter (fun m => negb (mark_analysis_id m =? analysis_id analysis)) (marks s)
          ++ new_marks (mark_seq s) analysis (sorted_marks_of data)).
  rewrite filter_app, (filter_none _ (new_marks _ _ _)).
  - rewrite app_nil_r. induction (marks s) as [|m r IH]; simpl; [reflexivity|].
    destruct (mark_analysis_id m =? analysis_id analysis) eqn:E1; simpl.
    + apply Z.eqb_eq in E1. rewrite E1.
      assert (E2 : (analysis_id analysis =? other) = false) by (apply Z.eqb_neq; congruence).
      now rewrite E2.
    + now rewrite IH.
  - eapply Forall_impl; [|apply new_marks_analysis].
    simpl. intros m ->. apply Z.eqb_neq. congruence.
Qed.

(** X22: the page of an analysis, opened right after an accepted save, shows
    the marks the save returned; and the page of any other analysis is the
    one it was before the save. *)
Theorem analysis_detail_after_save
  (s s' : Store) (pk : Z) (body : Body) (saved : list SavedMark)
  (Hok : analysis_save_marks s pk body = (s', JsonMarks saved)) :
  (exists analysis, analysis_detail s' pk = Some (analysis, saved, actions_data s))
  /\ (forall other, other <> pk -> analysis_detail s' other = analysis_detail s other).
Proof.
  apply save_inv in Hok. destruct Hok as (an & data & F & -> & R & -> & ->).
  split.
  - exists an. unfold analysis_detail.
    change (find_analysis (saved_store s an data) pk) with (find_analysis s pk).
    now rewrite F.
  - intros other Ho. unfold analysis_detail.
    change (find_analysis (saved_store s an data) other) with (find_analysis s other).
    destruct (find_analysis s other) as [an'|] eqn:F'; [|reflexivity].
    f_equal. f_equal. unfold marks_json, analysis_marks. f_equal. f_equal.
    rewrite other_marks_saved; [reflexivity|].
    rewrite (find_analysis_id _ _ _ F'), (find_analysis_id _ _ _ F). exact Ho.
Qed.

Lemma ordering_leb_total (x y : Action) :
  (ordering x <=? ordering y) = false -> (ordering y <=? ordering x) = true.
Proof. intros H. apply Z.leb_gt in H. apply Z.leb_le. lia. Qed.

(** The action catalogue of the analysis page lists every action row once,
    in ascending [ordering], each with its id, code, name and points. *)
Lemma analysis_detail_actions
  (s : Store) (pk : Z) (analysis : Analysis)
  (marks_shown : list SavedMark) (actions_shown : list ActionData)
  (Hpage : analysis_detail s pk = Some (analysis, marks_shown, actions_shown)) :
  exists rows,
    Permutation (actions s) rows
    /\ Sorted (fun a b => ordering a <= ordering b) rows
    /\ map ad_id actions_shown = map action_id rows
    /\ map ad_code actions_shown = map code rows
    /\ map ad_name actions_shown = map action_name rows
    /\ map ad_points actions_shown = map points rows.
Proof.
  unfold analysis_detail in Hpage.
  destruct (find_analysis s pk); [|discriminate]. injection Hpage as _ _ <-.
  exists (all_actions s). unfold actions_data, all_actions. repeat split.
  - apply sorted_perm.
  - eapply Sorted_impl; [|apply (sorted_Sorted _ ordering_leb_total)].
    intros x y. apply Z.leb_le.
  - now rewrite map_map.
  - now rewrite map_map.
  - now rewrite map_map.
  - now rewrite map_map.
Qed.

Lemma match_leb_total (x y : Analysis) :
  String.leb (match_label y) (match_label x) = false ->
  String.leb (match_label x) (match_label y) = true.
Proof.
  intros H. destruct (String.leb_total (match_label x) (match_label y)) as [T|T];
    [exact T | congruence].
Qed.

(** X23: on the event page a video of the event is listed as unlinked exactly
    when no analysis of the event is on it; the listed analyses are the
    analyses of the event, each once; videos and analyses of other events are
    not on the page. *)
Theorem event_detail_partition
  (s : Store) (pk : Z) (event : Event) (shown : list Analysis) (unlinked : list Video)
  (Hpage : event_detail s pk = Some (event, shown, unlinked)) :
  (forall v, In v unlinked
             <-> In v (videos s) /\ video_event_id v = pk
                 /\ forall a, In a (analyses s) -> analysis_event_id a = pk ->
                              analysis_video_id a <> video_id v)
  /\ Permutation (filter (fun a => analysis_event_id a =? pk) (analyses s)) shown.
Proof.
  unfold event_detail in Hpage. destruct (find_event s pk) as [e|] eqn:F; [|discriminate].
  injection Hpage as <- <- <-. pose proof (find_event_id _ _ _ F) as Hid.
  unfold event_videos, event_analyses, order_by_match_desc. rewrite Hid.
  pose proof (sorted_perm (fun a b => String.leb (match_label b) (match_label a))
                          (filter (fun a => analysis_event_id a =? pk) (analyses s))) as Hp.
  split; [|exact Hp].
  intros v. rewrite filter_In, filter_In, Z.eqb_eq, negb_true_iff. split.
  - intros [[Hv Hev] Hn]. repeat split; auto. intros a Ha Hea Heq.
    apply not_true_iff_false in Hn. apply Hn. apply mem_In. rewrite <- Heq.
    apply in_map. eapply Permutation_in; [exact Hp|].
    apply filter_In. split; [exact Ha | now apply Z.eqb_eq].
  - intros (Hv & Hev & Hn). repeat split; auto.
    apply not_true_iff_false. intros Hm. apply mem_In, in_map_iff in Hm.
    destruct Hm as [a [Ea Ha]].
    apply (Permutation_in _ (Permutation_sym Hp)), filter_In in Ha.
    destruct Ha as [Ha Hea]. apply Z.eqb_eq in Hea. exact (Hn a Ha Hea Ea).
Qed.

(** X24: a video just uploaded shows as unlinked on the page of its event,
    when no analysis names a video id that is not yet in use. *)
Theorem event_detail_after_upload
  (s s' : Store) (pk : Z) (file : option UploadedFile) (name : option string)
  (new_id : Z) (url : string)
  (Hfree : forall a, In a (analyses s) -> analysis_video_id a < video_seq s)
  (Hup : video_upload s pk file name = (s', JsonVideo new_id url)) :
  exists event shown unlinked v,
    event_detail s' pk = Some (event, shown, unlinked)
    /\ In v unlinked /\ video_id v = new_id.
Proof.
  destruct (upload_cases s pk file name) as [(event & ext & F & T & N & V & E) | (r' & E & Hr & _)];
    rewrite E in Hup.
  2:{ injection Hup as _ ->. destruct Hr as [Hr | [msg Hr]]; discriminate Hr. }
  injection Hup as <- <- _.
  unfold event_detail.
  change (find_event (uploaded_store s event (strip (get name EmptyString)) (read file) ext) pk)
    with (find_event s pk).
  rewrite F.
  exists event. eexists. eexists.
  exists (mkVideo (video_seq s) (event_id event) (strip (get name EmptyString))
                  (relative_path (event_date event) (read file) ext)
                  (Some (Z.of_nat (List.length (read file))))).
  split; [reflexivity|]. split; [|reflexivity].
  apply filter_In. split.
  - unfold event_videos, uploaded_store. cbn [videos]. apply filter_In. split.
    + apply in_app_iff. right. left. reflexivity.
    + cbn [video_event_id]. apply Z.eqb_refl.
  - apply negb_true_iff, not_true_iff_false. intros Hm.
    apply mem_In, in_map_iff in Hm. destruct Hm as [a [Ea Ha]].
    cbn [video_id] in Ea.
    unfold order_by_match_desc in Ha.
    apply (Permutation_in _ (Permutation_sym (sorted_perm _ _))) in Ha.
    apply filter_In in Ha. destruct Ha as [Ha _].
    change (analyses (uploaded_store s event (strip (get name EmptyString)) (read file) ext))
      with (analyses s) in Ha.
    specialize (Hfree a Ha). lia.
Qed.

(* ------------------------------------------------------------------ *)
(** ** The properties of the pages and of the saved rows on concrete requests *)


Lemma save_marks_total_points_witness :
  let s' := fst (analysis_save_marks example_store 3 (JsonObject (Some spec_example_marks))) in
  exists analysis,
    find_analysis example_store 3 = Some analysis
    /\ total_points s' analysis
       = Some (sum (map (submitted_points example_store) spec_example_marks)).
Proof.
  intros s'.
  apply (save_marks_total_points example_store s' 3 spec_example_marks spec_example_saved).
  vm_compute. reflexivity.
Defined.


Lemma save_marks_replaces_rows_witness :
  let s' := fst (analysis_save_marks example_store 3 (JsonObject (Some spec_example_marks))) in
  (forall m, In m (marks example_store) -> mark_analysis_id m = 3 -> ~ In m (marks s'))
  /\ List.length (filter (fun m => mark_analysis_id m =? 3) (marks s')) = 2%nat.
Proof.
  intros s'.
  apply (save_marks_replaces_rows example_store s' 3 spec_example_marks spec_example_saved).
  - repeat constructor.
  - vm_compute. reflexivity.
Defined.

Lemma video_upload_keeps_invariants_witness :
  let s' := fst (video_upload example_store 1 (Some quicktime_file) (Some "first"%string)) in
  keys_ok s' /\ refs_ok s'.
Proof.
  intros s'.
  apply (video_upload_keeps_invariants example_store 1 (Some quicktime_file)
                                       (Some "first"%string)).
  - exact example_store_keys_ok.
  - exact example_store_refs_ok.
Defined.

Lemma analysis_detail_after_save_witness :
  let s' := fst (analysis_save_marks example_store 3 (JsonObject (Some spec_example_marks))) in
  (exists analysis,
      analysis_detail s' 3 = Some (analysis, spec_example_saved, actions_data example_store))
  /\ (forall other, other <> 3 -> analysis_detail s' other = analysis_detail example_store other).
Proof.
  intros s'.
  apply (analysis_detail_after_save
           example_store s' 3 (JsonObject (Some spec_example_marks)) spec_example_saved).
  vm_compute. reflexivity.
Defined.

Lemma event_detail_partition_witness :
  let s1 := fst (video_upload example_store 1 (Some quicktime_file) (Some "first"%string)) in
  let s2 := fst (video_upload s1 1 (Some quicktime_file) (Some "second"%string)) in
  let unlinked := filter (fun v => video_id v =? 2) (videos s2) in
  (forall v, In v unlinked
             <-> In v (videos s2) /\ video_event_id v = 1
                 /\ forall a, In a (analyses s2) -> analysis_event_id a = 1 ->
                              analysis_video_id a <> video_id v)
  /\ Permutation (filter (fun a => analysis_event_id a =? 1) (analyses s2))
                 [mkAnalysis 3 1 1 "Red" "Q1"; mkAnalysis 4 1 1 "Blue" "Q1"].
Proof.
  intros s1 s2 unlinked.
  apply (event_detail_partition s2 1 (mkEvent 1 "Regional" (mkDate 2026 1 1))).
  vm_compute. reflexivity.
Defined.

Lemma event_detail_after_upload_witness :
  let s1 := fst (video_upload example_store 1 (Some quicktime_file) (Some "first"%string)) in
  let s2 := fst (video_upload s1 2 (Some quicktime_file) (Some "second"%string)) in
  exists event shown unlinked v,
    event_detail s2 2 = Some (event, shown, unlinked) /\ In v unlinked /\ video_id v = 2.
Proof.
  intros s1 s2.
  apply (event_detail_after_upload s1 s2 2 (Some quicktime_file) (Some "second"%string)
                                   2 "/events/2").
  - intros a [<- | [<- | []]]; vm_compute; reflexivity.
  - vm_compute. reflexivity.
Defined.

(* ------------------------------------------------------------------ *)
(** ** [analysis_create] *)

Lemma find_video_id (s : Store) (pk : Z) (video : Video) :
  find_video s pk = Some video -> video_id video = pk.
Proof.
  unfold find_video. intros H. apply find_some in H. now apply Z.eqb_eq.
Qed.

Lemma eqb_empty (t : string) : String.eqb t EmptyString = true <-> t = EmptyString.
Proof. apply String.eqb_eq. Qed.

(** The two ways [analysis_create] ends: a row is inserted, or nothing is. *)
Lemma create_cases (site : Site) (pk : Z) (POST_team POST_match : option string) :
  (exists video event,
      find_video (site_store site) pk = Some video
      /\ find_event (site_store site) (video_event_id video) = Some event
      /\ strip (get POST_team EmptyString) <> EmptyString
      /\ strip (get POST_match EmptyString) <> EmptyString
      /\ analysis_create site pk POST_team POST_match
         = (mkSite (insert_analysis
                      (site_store site)
                      (mkAnalysis (analysis_seq site) (event_id event) (video_id video)
                                  (strip (get POST_team EmptyString))
                                  (strip (get POST_match EmptyString))))
                   (analysis_seq site + 1),
            RedirectAnalysisDetail (analysis_seq site)))
  \/ (analysis_create site pk POST_team POST_match = (site, CreateNotFound)
      /\ find_video (site_store site) pk = None)
  \/ (analysis_create site pk POST_team POST_match = (site, CreateRaised)
      /\ exists video, find_video (site_store site) pk = Some video
                       /\ find_event (site_store site) (video_event_id video) = None)
  \/ (analysis_create site pk POST_team POST_match = (site, RedirectVideoDetail pk)
      /\ (strip (get POST_team EmptyString) = EmptyString
          \/ strip (get POST_match EmptyString) = EmptyString)).
Proof.
  unfold analysis_create.
  destruct (find_video (site_store site) pk) as [video|] eqn:F; [|right; left; auto].
  destruct (String.eqb (strip (get POST_team EmptyString)) EmptyString) eqn:Et.
  { right. right. right. split; [reflexivity|]. left. now apply String.eqb_eq. }
  destruct (String.eqb (strip (get POST_match EmptyString)) EmptyString) eqn:Em.
  { right. right. right. split; [reflexivity|]. right. now apply String.eqb_eq. }
  cbn [negb andb].
  destruct (find_event (site_store site) (video_event_id video)) as [event|] eqn:Fe.
  - left. exists video, event. apply String.eqb_neq in Et, Em. repeat split; auto.
  - right. right. left. split; [reflexivity|]. now exists video.
Qed.

(** X25: a request that creates no analysis changes nothing, and is answered
    by the 404 when there is no such video, by the redirect to the video's
    page when the team or the match label is missing or blank once stripped,
    or fails when the event of the video is gone. *)
Theorem analysis_create_refused_unchanged
  (site site' : Site) (pk : Z) (POST_team POST_match : option string) (r : CreateResponse)
  (Hr : analysis_create site pk POST_team POST_match = (site', r))
  (Hn : forall new_id, r <> RedirectAnalysisDetail new_id) :
  site' = site
  /\ (r = CreateNotFound /\ find_video (site_store site) pk = None
      \/ r = CreateRaised
         /\ (exists video, find_video (site_store site) pk = Some video
                           /\ find_event (site_store site) (video_event_id video) = None)
      \/ r = RedirectVideoDetail pk
         /\ (strip (get POST_team EmptyString) = EmptyString
             \/ strip (get POST_match EmptyString) = EmptyString)).
Proof.
  destruct (create_cases site pk POST_team POST_match)
    as [(video & event & _ & _ & _ & _ & E) | [[E F] | [[E F] | [E B]]]];
    rewrite E in Hr; injection Hr as <- <-.
  - exfalso. now apply (Hn (analysis_seq site)).
  - auto.
  - auto.
  - auto.
Qed.

(** X26: an accepted request appends exactly one analysis: its id is the next
    of the sequence and is the id in the redirect, it is on the video of the
    URL and on that video's event, its team and match label are the posted
    ones stripped, neither empty; the sequence advances by one and no other
    table changes. *)
Theorem analysis_create_effect
  (site site' : Site) (pk : Z) (POST_team POST_match : option string) (new_id : Z)
  (Hok : analysis_create site pk POST_team POST_match = (site', RedirectAnalysisDetail new_id)) :
  exists video analysis,
    find_video (site_store site) pk = Some video
    /\ analyses (site_store site') = analyses (site_store site) ++ [analysis]
    /\ analysis_id analysis = new_id /\ new_id = analysis_seq site
    /\ analysis_seq site' = analysis_seq site + 1
    /\ analysis_video_id analysis = pk
    /\ analysis_event_id analysis = video_event_id video
    /\ team analysis = strip (get POST_team EmptyString) /\ trimmed (team analysis)
    /\ match_label analysis = strip (get POST_match EmptyString)
    /\ trimmed (match_label analysis)
    /\ events (site_store site') = events (site_store site)
    /\ videos (site_store site') = videos (site_store site)
    /\ actions (site_store site') = actions (site_store site)
    /\ marks (site_store site') = marks (site_store site)
    /\ disk (site_store site') = disk (site_store site).
Proof.
  destruct (create_cases site pk POST_team POST_match)
    as [(video & event & F & Fe & Nt & Nm & E) | [[E F] | [[E F] | [E B]]]];
    rewrite E in Hok; try discriminate Hok.
  injection Hok as <- <-.
  exists video. eexists. split; [exact F|]. split; [reflexivity|].
  cbn [analysis_id analysis_video_id analysis_event_id team match_label analysis_seq].
  pose proof (find_video_id _ _ _ F) as Hv. pose proof (find_event_id _ _ _ Fe) as He.
  pose proof (strip_trimmed _ Nt) as Ht. pose proof (strip_trimmed _ Nm) as Hm.
  repeat match goal with |- _ /\ _ => split end; auto.
Qed.

Lemma find_app_none {A : Type} (p : A -> bool) (l : list A) (x : A) :
  find p l = None -> find p (l ++ [x]) = if p x then Some x else None.
Proof.
  induction l as [|y r IH]; simpl; [reflexivity|]. destruct (p y); [discriminate | exact IH].
Qed.

Lemma find_app_some {A : Type} (p : A -> bool) (l : list A) (x y : A) :
  find p l = Some y -> find p (l ++ [x]) = Some y.
Proof.
  induction l as [|z r IH]; simpl; [discriminate|]. destruct (p z); [auto | exact IH].
Qed.

Lemma find_none_below (s : Store) (bound pk : Z) :
  Forall (fun a => analysis_id a < bound) (analyses s) -> bound <= pk ->
  find_analysis s pk = None.
Proof.
  unfold find_analysis. intros H Hb. induction H as [|a r Ha _ IH]; simpl; [reflexivity|].
  assert (E : (analysis_id a =? pk) = false) by (apply Z.eqb_neq; lia). now rewrite E.
Qed.

(** X27: the pages after an accepted request, in a store whose analysis ids
    are below the sequence and whose marks name analyses below it: the new
    analysis opens with no marks and the whole action catalogue; the page of
    every other analysis is what it was; and on the page of the video's
    event the new analysis is listed and the video is no longer among the
    unlinked ones. *)
Theorem analysis_create_pages
  (site site' : Site) (pk : Z) (POST_team POST_match : option string) (new_id : Z)
  (Hids : Forall (fun a => analysis_id a < analysis_seq site) (analyses (site_store site)))
  (Hmarks : Forall (fun m => mark_analysis_id m < analysis_seq site) (marks (site_store site)))
  (Hok : analysis_create site pk POST_team POST_match = (site', RedirectAnalysisDetail new_id)) :
  (exists analysis,
      analysis_detail (site_store site') new_id
      = Some (analysis, [], actions_data (site_store site))
      /\ analysis_video_id analysis = pk)
  /\ (forall other, other <> new_id ->
                    analysis_detail (site_store site') other
                    = analysis_detail (site_store site) other)
  /\ exists video event shown unlinked,
      find_video (site_store site) pk = Some video
      /\ event_detail (site_store site') (video_event_id video) = Some (event, shown, unlinked)
      /\ (exists a, In a shown /\ analysis_id a = new_id)
      /\ forall v, In v unlinked -> video_id v <> pk.
Proof.
  destruct (create_cases site pk POST_team POST_match)
    as [(video & event & F & Fe & Nt & Nm & E) | [[E F] | [[E F] | [E B]]]];
    rewrite E in Hok; try discriminate Hok.
  injection Hok as <- <-. cbn [site_store].
  set (s := site_store site) in *.
  set (a := mkAnalysis (analysis_seq site) (event_id event) (video_id video)
                       (strip (get POST_team EmptyString))
                       (strip (get POST_match EmptyString))).
  assert (Hfind : forall other,
             find_analysis (insert_analysis s a) other
             = if other =? analysis_seq site then Some a else find_analysis s other).
  { intros other. unfold find_analysis. cbn [insert_analysis analyses].
    destruct (Z.eqb_spec other (analysis_seq site)) as [->|Ho].
    - rewrite find_app_none; [cbn [a analysis_id]; now rewrite Z.eqb_refl|].
      apply (find_none_below s (analysis_seq site)); [exact Hids | lia].
    - destruct (find (fun x => analysis_id x =? other) (analyses s)) as [y|] eqn:Fy.
      + now apply find_app_some.
      + rewrite find_app_none by exact Fy. cbn [a analysis_id].
        assert (E' : (analysis_seq site =? other) = false) by (apply Z.eqb_neq; congruence).
        now rewrite E'. }
  split; [|split].
  - exists a. split; [|apply (find_video_id _ _ _ F)].
    unfold analysis_detail. rewrite Hfind, Z.eqb_refl. f_equal. f_equal. f_equal.
    unfold marks_json, analysis_marks. cbn [insert_analysis marks a analysis_id].
    rewrite filter_none; [reflexivity|].
    eapply Forall_impl; [|exact Hmarks]. simpl. intros m Hm. apply Z.eqb_neq. lia.
  - intros other Ho. unfold analysis_detail. rewrite Hfind.
    apply Z.eqb_neq in Ho. rewrite Ho. reflexivity.
  - pose proof (find_event_id _ _ _ Fe) as Hev.
    exists video, event. eexists. eexists. split; [exact F|]. split.
    + unfold event_detail.
      change (find_event (insert_analysis s a) (video_event_id video))
        with (find_event s (video_event_id video)).
      rewrite Fe. reflexivity.
    + assert (Hin : In a (order_by_match_desc (event_analyses (insert_analysis s a) event))).
      { unfold order_by_match_desc.
        eapply Permutation_in; [apply sorted_perm|].
        unfold event_analyses. apply filter_In. split.
        - cbn [insert_analysis analyses]. apply in_app_iff. right. left. reflexivity.
        - cbn [a analysis_event_id]. apply Z.eqb_refl. }
      split.
      * exists a. split; [exact Hin | reflexivity].
      * intros v Hv Hpk. apply filter_In in Hv. destruct Hv as [_ Hn].
        apply negb_true_iff, not_true_iff_false in Hn. apply Hn. apply mem_In.
        rewrite Hpk, <- (find_video_id _ _ _ F).
        change (video_id video) with (analysis_video_id a). apply in_map. exact Hin.
Qed.

(* ------------------------------------------------------------------ *)
(** ** urls.py: [resolve] and [reverse] *)

From Stdlib Require DecimalPos.

Lemma strip_prefix_app (p s : string) : strip_prefix p (p ++ s) = Some s.
Proof.
  induction p as [|c p IH]; simpl; [reflexivity|]. now rewrite Ascii.eqb_refl.
Qed.

Lemma strip_prefix_inv (p s rest : string) :
  strip_prefix p s = Some rest -> s = (p ++ rest)%string.
Proof.
  revert s. induction p as [|c p IH]; intros s H; simpl in *.
  - now injection H as ->.
  - destruct s as [|d s]; [discriminate|].
    destruct (Ascii.eqb_spec c d) as [->|]; [|discriminate]. now rewrite (IH _ H).
Qed.

Lemma take_digits_uint (d : Decimal.uint) (suffix : string) :
  take_digits suffix = (Decimal.Nil, suffix) ->
  take_digits (NilEmpty.string_of_uint d ++ suffix) = (d, suffix).
Proof.
  intros H. induction d as [|d IH|d IH|d IH|d IH|d IH|d IH|d IH|d IH|d IH|d IH];
    simpl; [exact H | now rewrite IH ..].
Qed.

Lemma str_nonneg (z : Z) :
  0 <= z ->
  exists d, str z = NilEmpty.string_of_uint d /\ d <> Decimal.Nil /\ Z.of_uint d = z.
Proof.
  intros H. unfold str. destruct z as [|p|p]; [| |lia].
  - exists (Decimal.D0 Decimal.Nil). repeat split. discriminate.
  - exists (Pos.to_uint p). cbn [Z.to_int NilEmpty.string_of_int]. repeat split.
    + apply DecimalPos.Unsigned.to_uint_nonnil.
    + unfold Z.of_uint. now rewrite DecimalPos.Unsigned.of_to.
Qed.

Lemma str_negative (z : Z) : z < 0 -> exists t, str z = String "-" t.
Proof.
  intros H. destruct z as [|p|p]; [lia | lia |]. unfold str. cbn. eauto.
Qed.

Lemma of_uint_nonneg (d : Decimal.uint) : 0 <= Z.of_uint d.
Proof. unfold Z.of_uint. apply N2Z.is_nonneg. Qed.

Lemma match_int_ok (prefix parameter suffix : string) (z : Z) :
  0 <= z -> take_digits suffix = (Decimal.Nil, suffix) ->
  match_shape (WithInt prefix parameter suffix) (prefix ++ str z ++ suffix)
  = Some (Some (parameter, z)).
Proof.
  intros Hz Hs. unfold match_shape. rewrite strip_prefix_app.
  destruct (str_nonneg z Hz) as (d & -> & Hn & <-).
  rewrite (take_digits_uint d suffix Hs).
  destruct d; [congruence | now rewrite String.eqb_refl ..].
Qed.

Lemma match_int_negative (prefix parameter suffix : string) (z : Z) :
  z < 0 ->
  match_shape (WithInt prefix parameter suffix) (prefix ++ str z ++ suffix) = None.
Proof.
  intros Hz. destruct (str_negative z Hz) as [t ->].
  unfold match_shape. rewrite strip_prefix_app. simpl.
  now destruct (take_digits (t ++ suffix)).
Qed.

Lemma match_int_other_suffix (prefix parameter suffix other : string) (z : Z) :
  0 <= z -> take_digits suffix = (Decimal.Nil, suffix) -> String.eqb suffix other = false ->
  match_shape (WithInt prefix parameter other) (prefix ++ str z ++ suffix) = None.
Proof.
  intros Hz Hs Ho. unfold match_shape. rewrite strip_prefix_app.
  destruct (str_nonneg z Hz) as (d & -> & Hn & <-).
  rewrite (take_digits_uint d suffix Hs).
  destruct d; [congruence | now rewrite Ho ..].
Qed.

Lemma match_static_digits (prefix text suffix : string) (z : Z) :
  0 <= z -> take_digits suffix = (Decimal.Nil, suffix) ->
  take_digits text = (Decimal.Nil, text) ->
  match_shape (Static (prefix ++ text)) (prefix ++ str z ++ suffix) = None.
Proof.
  intros Hz Hs Ht. unfold match_shape.
  destruct (String.eqb_spec (prefix ++ str z ++ suffix) (prefix ++ text)) as [E|]; [|reflexivity].
  exfalso. apply (f_equal (strip_prefix prefix)) in E. rewrite !strip_prefix_app in E.
  injection E as E. destruct (str_nonneg z Hz) as (d & Hd & Hn & _).
  rewrite Hd in E. apply (f_equal take_digits) in E.
  rewrite (take_digits_uint d suffix Hs), Ht in E. congruence.
Qed.

(** What a match against an [int] shape says of the path. *)
Lemma match_int_inv (prefix parameter suffix url : string) (kwargs : Kwargs) :
  match_shape (WithInt prefix parameter suffix) url = Some kwargs ->
  exists z, 0 <= z /\ kwargs = Some (parameter, z).
Proof.
  unfold match_shape. destruct (strip_prefix prefix url) as [rest|]; [|discriminate].
  destruct (take_digits rest) as [d rest']. intros H.
  exists (Z.of_uint d). split; [apply of_uint_nonneg|].
  destruct d; [discriminate | destruct (String.eqb rest' suffix); [now injection H | discriminate] ..].
Qed.

Lemma match_static_inv (text url : string) (kwargs : Kwargs) :
  match_shape (Static text) url = Some kwargs -> url = text /\ kwargs = None.
Proof.
  unfold match_shape. destruct (String.eqb_spec url text); [|discriminate].
  intros H. now injection H.
Qed.

Lemma resolve_in_hit (p : Pattern) (rest : list Pattern) (url : string) (kwargs : Kwargs) :
  match_pattern p url = Some kwargs ->
  resolve_in (p :: rest) url = Some (pattern_name p, kwargs).
Proof. intros H. cbn [resolve_in]. now rewrite H. Qed.

Lemma resolve_in_miss (p : Pattern) (rest : list Pattern) (url : string) :
  match_pattern p url = None -> resolve_in (p :: rest) url = resolve_in rest url.
Proof. intros H. cbn [resolve_in]. now rewrite H. Qed.

Lemma resolve_in_some (patterns : list Pattern) (url name : string) (kwargs : Kwargs) :
  resolve_in patterns url = Some (name, kwargs) ->
  exists p shape,
    In p patterns /\ pattern_name p = name
    /\ route_shape (pattern_route p) = Some shape
    /\ match_shape shape url = Some kwargs.
Proof.
  induction patterns as [|p rest IH]; cbn [resolve_in]; [discriminate|].
  destruct (match_pattern p url) as [k|] eqn:M.
  - intros H. injection H as <- <-. unfold match_pattern in M.
    destruct (route_shape (pattern_route p)) as [shape|] eqn:S; [|discriminate].
    exists p, shape. repeat split; auto. now left.
  - intros H. destruct (IH H) as (q & shape & Hin & Hq). exists q, shape. split; [now right | exact Hq].
Qed.

Lemma reverse_in_hit (p : Pattern) (rest : list Pattern) (name text : string)
      (kwargs : Kwargs) (shape : Shape) (k : Kwargs) :
  String.eqb (pattern_name p) name = true ->
  route_shape (pattern_route p) = Some shape ->
  candidate shape kwargs = Some text ->
  match_shape shape text = Some k ->
  reverse_in (p :: rest) name kwargs = Some text.
Proof. intros Hn Hs Hc Hm. cbn [reverse_in]. now rewrite Hn, Hs, Hc, Hm. Qed.

Lemma reverse_in_miss (p : Pattern) (rest : list Pattern) (name : string) (kwargs : Kwargs) :
  String.eqb (pattern_name p) name = false ->
  reverse_in (p :: rest) name kwargs = reverse_in rest name kwargs.
Proof. intros Hn. cbn [reverse_in]. now rewrite Hn. Qed.

Lemma reverse_in_some (possibilities : list Pattern) (name url : string) (kwargs : Kwargs) :
  reverse_in possibilities name kwargs = Some url ->
  exists p shape,
    In p possibilities /\ pattern_name p = name
    /\ route_shape (pattern_route p) = Some shape
    /\ candidate shape kwargs = Some url
    /\ match_shape shape url <> None.
Proof.
  induction possibilities as [|p rest IH]; cbn [reverse_in]; [discriminate|].
  intros H.
  assert (Hrest : reverse_in rest name kwargs = Some url ->
                  exists q shape,
                    In q (p :: rest) /\ pattern_name q = name
                    /\ route_shape (pattern_route q) = Some shape
                    /\ candidate shape kwargs = Some url
                    /\ match_shape shape url <> None).
  { intros H'. destruct (IH H') as (q & shape & Hin & Hq). exists q, shape.
    split; [now right | exact Hq]. }
  destruct (String.eqb_spec (pattern_name p) name) as [En|]; [|auto].
  destruct (route_shape (pattern_route p)) as [shape|] eqn:S; [|auto].
  destruct (candidate shape kwargs) as [text|] eqn:C; [|auto].
  destruct (match_shape shape text) as [k|] eqn:M; [|auto].
  injection H as <-. exists p, shape. repeat split; auto; [now left | congruence].
Qed.

(** The arguments a shape accepts when a path is built from it. *)
Lemma candidate_inv (shape : Shape) (kwargs : Kwargs) (url : string) :
  candidate shape kwargs = Some url -> match_shape shape url <> None ->
  match shape with
  | Static text => kwargs = None /\ url = text
  | WithInt prefix parameter suffix =>
      exists z, 0 <= z /\ kwargs = Some (parameter, z)
                /\ url = (prefix ++ str z ++ suffix)%string
  end.
Proof.
  destruct shape as [text | prefix parameter suffix]; destruct kwargs as [[key value]|];
    cbn [candidate]; try discriminate.
  - intros H _. now injection H.
  - destruct (String.eqb_spec key parameter) as [->|]; [|discriminate].
    intros H M. injection H as <-. exists value. repeat split.
    destruct (Z.lt_ge_cases value 0) as [Hneg|]; [|assumption].
    now rewrite match_int_negative in M.
Qed.

(** Each pattern in turn against a path built for an [int] route. *)
Ltac miss_or_hit z :=
  first
    [ rewrite resolve_in_miss;
      [| unfold match_pattern;
         first [ reflexivity
               | apply match_int_other_suffix; [assumption | reflexivity | reflexivity]
               | apply (match_static_digits "events/" "new"); [assumption | reflexivity | reflexivity] ] ]
    | apply resolve_in_hit; unfold match_pattern; apply match_int_ok;
      [assumption | reflexivity] ].

Lemma resolve_candidate (p : Pattern) (shape : Shape) (kwargs : Kwargs) (url : string) :
  In p urlpatterns ->
  route_shape (pattern_route p) = Some shape ->
  candidate shape kwargs = Some url ->
  match_shape shape url <> None ->
  resolve url = Some (pattern_name p, kwargs)
  /\ forall parameter z, kwargs = Some (parameter, z) -> 0 <= z.
Proof.
  intros Hin Hs Hc Hm. pose proof (candidate_inv _ _ _ Hc Hm) as Hi. clear Hc Hm.
  unfold urlpatterns in Hin. cbn [In] in Hin.
  repeat (destruct Hin as [<- | Hin]); try contradiction;
    vm_compute in Hs; injection Hs as <-.
  1,2: destruct Hi as [-> ->]; split; [reflexivity | discriminate].
  all: destruct Hi as (z & Hz & -> & ->);
    (split; [| intros ? ? H; injection H as _ <-; exact Hz]);
    unfold resolve, urlpatterns; cbn [pattern_name]; repeat miss_or_hit z.
Qed.

Lemma reverse_in_skip (p : Pattern) (rest : list Pattern) (name : string) (kwargs : Kwargs)
      (r : option string) :
  String.eqb (pattern_name p) name = false ->
  reverse_in rest name kwargs = r ->
  reverse_in (p :: rest) name kwargs = r.
Proof. intros Hn <-. now apply reverse_in_miss. Qed.

Lemma reversed_resolves (name : string) (kwargs : Kwargs) (url : string) :
  reverse name kwargs = Some url ->
  resolve url = Some (name, kwargs)
  /\ forall parameter z, kwargs = Some (parameter, z) -> 0 <= z.
Proof.
  unfold reverse. intros Hrev. apply reverse_in_some in Hrev.
  destruct Hrev as (p & shape & Hin & <- & Hs & Hc & Hm).
  apply in_rev in Hin. exact (resolve_candidate p shape kwargs url Hin Hs Hc Hm).
Qed.

Lemma append_empty_r (s : string) : (s ++ "")%string = s.
Proof. induction s as [|c s IH]; simpl; [reflexivity | now rewrite IH]. Qed.

(** X28: a path that [reverse] builds for a name and its arguments resolves
    to that name with those arguments; and [reverse] builds a path only for
    an id that is zero or more. *)
Theorem reverse_resolve
  (name : string) (kwargs : Kwargs) (url : string)
  (Hrev : reverse name kwargs = Some url) :
  resolve url = Some (name, kwargs)
  /\ forall parameter z, kwargs = Some (parameter, z) -> 0 <= z.
Proof. exact (reversed_resolves name kwargs url Hrev). Qed.

(** X29: whatever a path resolves to can be built back: the id it carries is
    zero or more, and [reverse] on the resolved name and arguments gives a
    path, the one without leading zeros, that resolves to the same view with
    the same arguments. *)
Theorem resolve_reverse
  (url name : string) (kwargs : Kwargs)
  (Hres : resolve url = Some (name, kwargs)) :
  (forall parameter z, kwargs = Some (parameter, z) -> 0 <= z)
  /\ exists canonical,
      reverse name kwargs = Some canonical
      /\ resolve canonical = Some (name, kwargs).
Proof.
  assert (Hrev : exists canonical, reverse name kwargs = Some canonical).
  { unfold resolve in Hres. apply resolve_in_some in Hres.
    destruct Hres as (p & shape & Hin & <- & Hs & Hm).
    unfold urlpatterns in Hin. cbn [In] in Hin.
    repeat (destruct Hin as [<- | Hin]); try contradiction;
      vm_compute in Hs; injection Hs as <-.
    1,2: apply match_static_inv in Hm; destruct Hm as [_ ->]; eexists; reflexivity.
    all: apply match_int_inv in Hm; destruct Hm as (z & Hz & ->);
      eexists; unfold reverse, urlpatterns; cbn [rev app pattern_name];
      repeat (apply reverse_in_skip; [reflexivity|]);
      (eapply reverse_in_hit;
       [reflexivity | reflexivity | reflexivity
        | apply (match_int_ok _ _ _ z); [exact Hz | reflexivity]]). }
  destruct Hrev as [canonical Hrev].
  destruct (reversed_resolves name kwargs canonical Hrev) as [Hr Hz].
  split; [exact Hz|]. now exists canonical.
Qed.

(** X30: the [redirect_url] of an accepted upload is a slash and then a path
    that this module routes to [event_detail] with the event of the upload,
    and the page it leads to is found. *)
Theorem video_upload_redirect_resolves
  (s s' : Store) (pk : Z) (file : option UploadedFile) (name : option string)
  (new_id : Z) (url : string)
  (Hpk : 0 <= pk)
  (Hup : video_upload s pk file name = (s', JsonVideo new_id url)) :
  exists rest,
    url = String "/" rest
    /\ resolve rest = Some ("event_detail"%string, Some ("event_id"%string, pk))
    /\ exists event shown unlinked, event_detail s' pk = Some (event, shown, unlinked).
Proof.
  destruct (upload_cases s pk file name) as [(event & ext & F & T & N & V & E) | (r' & E & Hr & _)];
    rewrite E in Hup.
  2:{ injection Hup as _ ->. destruct Hr as [Hr | [msg Hr]]; discriminate Hr. }
  injection Hup as <- _ <-.
  exists ("events/" ++ str pk)%string. split; [reflexivity|]. split.
  - rewrite <- (append_empty_r (str pk)).
    apply (resolve_candidate (mkPattern "events/<int:event_id>" "event_detail")
                             (WithInt "events/" "event_id" "")).
    + unfold urlpatterns. cbn [In]. auto.
    + reflexivity.
    + reflexivity.
    + rewrite match_int_ok by (auto; reflexivity). discriminate.
  - unfold event_detail.
    change (find_event (uploaded_store s event (strip (get name EmptyString)) (read file) ext) pk)
      with (find_event s pk).
    rewrite F. eauto.
Qed.

(* ------------------------------------------------------------------ *)
(** ** [analysis_create] and the routes on concrete requests *)

Lemma analysis_create_refused_unchanged_witness :
  let s1 := fst (video_upload example_store 1 (Some quicktime_file) (Some "first"%string)) in
  let site := mkSite s1 5 in
  fst (analysis_create site 1 (Some "   "%string) (Some "Q2"%string)) = site.
Proof.
  intros s1 site.
  apply (analysis_create_refused_unchanged
           site _ 1 (Some "   "%string) (Some "Q2"%string) (RedirectVideoDetail 1)).
  - vm_compute. reflexivity.
  - discriminate.
Defined.

Lemma analysis_create_effect_witness :
  let s1 := fst (video_upload example_store 1 (Some quicktime_file) (Some "first"%string)) in
  let site := mkSite s1 5 in
  let site' := fst (analysis_create site 1 (Some " Green "%string) (Some "Q2"%string)) in
  exists video analysis,
    find_video s1 1 = Some video
    /\ analyses (site_store site') = analyses s1 ++ [analysis]
    /\ analysis_id analysis = 5 /\ 5 = 5
    /\ analysis_seq site' = 5 + 1
    /\ analysis_video_id analysis = 1
    /\ analysis_event_id analysis = video_event_id video
    /\ team analysis = "Green"%string /\ trimmed (team analysis)
    /\ match_label analysis = "Q2"%string /\ trimmed (match_label analysis)
    /\ events (site_store site') = events s1
    /\ videos (site_store site') = videos s1
    /\ actions (site_store site') = actions s1
    /\ marks (site_store site') = marks s1
    /\ disk (site_store site') = disk s1.
Proof.
  intros s1 site site'.
  apply (analysis_create_effect site site' 1 (Some " Green "%string) (Some "Q2"%string) 5).
  vm_compute. reflexivity.
Defined.

Lemma analysis_create_pages_witness :
  let s1 := fst (video_upload example_store 1 (Some quicktime_file) (Some "first"%string)) in
  let s2 := fst (video_upload s1 2 (Some quicktime_file) (Some "second"%string)) in
  let site := mkSite s2 5 in
  let site' := fst (analysis_create site 2 (Some "Green"%string) (Some "F1"%string)) in
  (exists analysis,
      analysis_detail (site_store site') 5 = Some (analysis, [], actions_data s2)
      /\ analysis_video_id analysis = 2)
  /\ (forall other, other <> 5 ->
                    analysis_detail (site_store site') other = analysis_detail s2 other)
  /\ exists video event shown unlinked,
      find_video s2 2 = Some video
      /\ event_detail (site_store site') (video_event_id video) = Some (event, shown, unlinked)
      /\ (exists a, In a shown /\ analysis_id a = 5)
      /\ forall v, In v unlinked -> video_id v <> 2.
Proof.
  intros s1 s2 site site'.
  apply (analysis_create_pages site site' 2 (Some "Green"%string) (Some "F1"%string) 5).
  - repeat constructor.
  - repeat constructor.
  - vm_compute. reflexivity.
Defined.

Lemma reverse_resolve_witness :
  resolve "videos/1234/file"
  = Some ("video_serve"%string, Some ("video_id"%string, 1234))
  /\ forall parameter z, Some ("video_id"%string, 1234) = Some (parameter, z) -> 0 <= z.
Proof.
  apply (reverse_resolve "video_serve" (Some ("video_id"%string, 1234)) "videos/1234/file").
  reflexivity.
Defined.

Lemma resolve_reverse_witness :
  (forall parameter z, Some ("event_id"%string, 7) = Some (parameter, z) -> 0 <= z)
  /\ exists canonical,
      reverse "video_upload" (Some ("event_id"%string, 7)) = Some canonical
      /\ resolve canonical = Some ("video_upload"%string, Some ("event_id"%string, 7)).
Proof.
  apply (resolve_reverse "events/007/upload").
  reflexivity.
Defined.

Lemma video_upload_redirect_resolves_witness :
  let s' := fst (video_upload example_store 1 (Some quicktime_file) (Some "first"%string)) in
  exists rest,
    "/events/1"%string = String "/" rest
    /\ resolve rest = Some ("event_detail"%string, Some ("event_id"%string, 1))
    /\ exists event shown unlinked, event_detail s' 1 = Some (event, shown, unlinked).
Proof.
  intros s'.
  apply (video_upload_redirect_resolves example_store s' 1 (Some quicktime_file)
                                        (Some "first"%string) 1 "/events/1").
  - lia.
  - vm_compute. reflexivity.
Defined.
